(** * Fine-tuning driver of GLM ([finetune_gpt2.py]): a shallow embedding

    The development follows the Python module function by function:
    - [Py]       : the few Python primitives the module relies on (exceptions,
                   [try]/[except], [//] and [%], truthiness, [range], [enumerate]);
    - [Interval] : the three interval tests and the resume position of [_train];
    - [Forward]  : [process_batch] and [cross_entropy_forward_step];
    - [Cycler]   : the generator [_build_infinite_size_dataloader];
    - [Loader]   : [build_data_loader];
    - [Train]    : the loop [_train];
    - [Finetune] : the checkpoint section of [finetune] and its dispatch;
    - [Examples] : the configurations the statements are instantiated at;
    - [Dataloaders] : [_build_train_valid_dataloaders];
    - [Schedule] : readings of runs and the events of a run in closed form.
    The modules [IntervalFacts], [ForwardFacts], [CyclerFacts],
    [FinetuneFacts], [PyFacts], [TrainFacts], [ResumeFacts] and
    [LoaderFacts] hold the properties; [LoaderShapeFacts], [ScheduleFacts], [CyclerPeriodFacts],
    [ForwardErrorFacts], [FinetuneErrorFacts], [DataloadersFacts] and
    [ReportFacts] hold further properties of the same code.

    Python integers are [Z]; Python's floor division and modulus coincide with
    [Z.div] and [Z.modulo] (the remainder takes the sign of the divisor). *)

From Stdlib Require Import ZArith String Bool Lia Arith List Permutation.
Import ListNotations.

Open Scope Z_scope.

(* ===================================================================== *)
(** * Python primitives *)
(* ===================================================================== *)

Module Py.

(** The exceptions that can arise in the modelled code.  [OtherError] stands
    for any exception raised by a collaborator (data pipeline, checkpoint
    reader); [KeyboardInterrupt] derives from [BaseException] only. *)
Inductive exn : Type :=
  | StopIteration
  | TypeError
  | ZeroDivisionError
  | AttributeError
  | KeyError
  | KeyboardInterrupt
  | OtherError (tag : nat).

(** The exception classes named in [except] clauses of the module. *)
Inductive exn_class : Type :=
  | BaseException_class
  | StopIteration_class.

(** [isinstance(e, cls)]. *)
Definition exn_isinstance (e : exn) (cls : exn_class) : bool :=
  match cls with
  | BaseException_class => true
  | StopIteration_class =>
      match e with StopIteration => true | _ => false end
  end.

(** Outcome of evaluating an expression: a value or a raised exception. *)
Inductive result (A : Type) : Type :=
  | Ok (a : A)
  | Raise (e : exn).
Arguments Ok {A} a.
Arguments Raise {A} e.

Definition rbind {A B} (r : result A) (k : A -> result B) : result B :=
  match r with
  | Ok a => k a
  | Raise e => Raise e
  end.

(** [try: body  except cls: handler]. *)
Definition try_except {A} (body : result A) (cls : exn_class)
    (handler : result A) : result A :=
  match body with
  | Ok a => Ok a
  | Raise e => if exn_isinstance e cls then handler else Raise e
  end.

(** [a // b] and [a % b] on integers. *)
Definition floordiv (a b : Z) : result Z :=
  if b =? 0 then Raise ZeroDivisionError else Ok (a / b).

Definition mod_ (a b : Z) : result Z :=
  if b =? 0 then Raise ZeroDivisionError else Ok (a mod b).

(** [a % b] where [b] is an attribute that may hold [None]. *)
Definition mod_attr (a : Z) (b : option Z) : result Z :=
  match b with
  | None => Raise TypeError
  | Some k => mod_ a k
  end.

(** Truthiness of an optional integer and of an optional string
    ([None], [0] and the empty string are falsy). *)
Definition truthy_int (o : option Z) : bool :=
  match o with
  | Some k => negb (k =? 0)
  | None => false
  end.

Definition truthy_str (o : option string) : bool :=
  match o with
  | Some s => negb (String.eqb s EmptyString)
  | None => false
  end.

(** [range(a, b)]. *)
Definition range (a b : Z) : list Z :=
  map (fun i => a + Z.of_nat i) (seq 0 (Z.to_nat (b - a))).

(** [enumerate(l)]. *)
Definition enumerate {A} (l : list A) : list (Z * A) :=
  combine (map Z.of_nat (seq 0 (List.length l))) l.

End Py.
Import Py.

(* ===================================================================== *)
(** * Configuration ([args]) *)
(* ===================================================================== *)

(** The attributes of [args] read by the module.  [iteration] is the only one
    the module mutates during training; it lives in the loop state below.
    An attribute holding [None] is [None] here. *)
Record Args : Type := mkArgs {
  epochs : Z;
  train_iters_per_epoch : Z;
  seed : Z;
  log_interval : option Z;
  save : option string;
  save_interval : option Z;
  eval_interval : option Z;
  load : option string;
  fp16 : bool
}.

(* ===================================================================== *)
(** * Interval decisions and resume position of [_train] *)
(* ===================================================================== *)

Module Interval.

(** [args.iteration % args.log_interval == 0] (line 166). *)
Definition should_log (a : Args) (iteration : Z) : result bool :=
  rbind (mod_attr iteration (log_interval a)) (fun r => Ok (r =? 0)).

(** [args.save and args.save_interval and
     args.iteration % args.save_interval == 0] (line 176); [and] evaluates
    its right operand only when the left one is truthy. *)
Definition should_save (a : Args) (iteration : Z) : result bool :=
  if truthy_str (save a) then
    if truthy_int (save_interval a) then
      rbind (mod_attr iteration (save_interval a)) (fun r => Ok (r =? 0))
    else Ok false
  else Ok false.

(** [args.eval_interval and args.iteration % args.eval_interval == 0]
    (line 180). *)
Definition should_eval (a : Args) (iteration : Z) : result bool :=
  if truthy_int (eval_interval a) then
    rbind (mod_attr iteration (eval_interval a)) (fun r => Ok (r =? 0))
  else Ok false.

(** The three decisions taken after a step. *)
Record decision : Type := mkDecision {
  d_log : result bool;
  d_save : result bool;
  d_eval : result bool
}.

Definition decide (a : Args) (iteration : Z) : decision :=
  {| d_log := should_log a iteration;
     d_save := should_save a iteration;
     d_eval := should_eval a iteration |}.

(** The decision as the specification words it: an action fires iff its
    interval is set and divides the iteration. *)
Definition spec_trigger (interval : option Z) (iteration : Z) : bool :=
  match interval with
  | Some k => iteration mod k =? 0
  | None => false
  end.

(** The divisor of [total_lm_loss.item() / args.log_interval] (line 168). *)
Definition log_divisor (a : Args) : result Z :=
  match log_interval a with
  | None => Raise TypeError
  | Some k => if k =? 0 then Raise ZeroDivisionError else Ok k
  end.

(** [start_epoch] and [start_iteration] (lines 139-140). *)
Definition resume_position (iteration iters_per_epoch : Z) : result (Z * Z) :=
  rbind (floordiv iteration iters_per_epoch) (fun start_epoch =>
  rbind (mod_ iteration iters_per_epoch) (fun start_iteration =>
  Ok (start_epoch, start_iteration))).

End Interval.

(* ===================================================================== *)
(** * [cross_entropy_forward_step] and [process_batch] *)
(* ===================================================================== *)

Module Forward.

Section ForwardStep.

(** Tensors, the model and the loss are collaborators; only the way the
    forward step picks its batch and routes it through them is modelled.
    The payloads of a record are tensors, on which the conversions of lines
    42-47 and the device placement succeed; building the position ids
    (lines 48-51: [size(-1)], [expand_as], [stack]) depends on the shape of
    the tokens and may raise. *)
Variables tensor mems loss : Type.
Variable to_long to_float to_half : tensor -> tensor.
Variable make_position_ids : tensor -> result tensor.
Variable model : tensor -> tensor -> tensor -> tensor * mems.
Variable cross_entropy : tensor -> tensor -> loss.

(** What the caller hands over as [batch]: a batch record (a mapping from
    field names to tensors) or an iterator.  An iterator is described by the
    elements it still has to deliver and by the exception it raises once they
    are used up ([StopIteration] for a well-behaved one). *)
#[local] Unset Elimination Schemes.
Inductive pyobj : Type :=
  | BatchRecord (fields : list (string * tensor))
  | Iterator (pending : list pyobj) (at_end : exn).
#[local] Set Elimination Schemes.

(** [next(batch)]: the value delivered or the exception raised, together
    with the object as the call leaves it. *)
Definition next (batch : pyobj) : result pyobj * pyobj :=
  match batch with
  | BatchRecord _ => (Raise TypeError, batch)
  | Iterator [] e => (Raise e, batch)
  | Iterator (x :: rest) e => (Ok x, Iterator rest e)
  end.

Fixpoint lookup (key : string) (fields : list (string * tensor))
    : result tensor :=
  match fields with
  | [] => Raise KeyError
  | (k, v) :: rest => if String.eqb k key then Ok v else lookup key rest
  end.

(** [batch_[key]]: only a record can be subscripted. *)
Definition getitem (batch_ : pyobj) (key : string) : result tensor :=
  match batch_ with
  | BatchRecord fields => lookup key fields
  | Iterator _ _ => Raise TypeError
  end.

(** [process_batch(batch, args)] (lines 40-53); the result is
    [(tokens, types, labels, position_ids, attention_mask)]. *)
Definition process_batch (batch_ : pyobj) (a : Args)
    : result (tensor * tensor * tensor * tensor * tensor) :=
  rbind (getitem batch_ "text") (fun text =>
  let tokens := to_long text in
  rbind (getitem batch_ "types") (fun ty =>
  let types := to_long ty in
  rbind (getitem batch_ "label") (fun lab =>
  let labels := to_long lab in
  rbind (getitem batch_ "padding_mask") (fun pm =>
  let attention_mask := to_float pm in
  let attention_mask :=
    if fp16 a then to_half attention_mask else attention_mask in
  rbind (make_position_ids tokens) (fun position_ids =>
  Ok (tokens, types, labels, position_ids, attention_mask)))))).

(** Lines 60-63: [try: batch_ = next(batch)  except BaseException:
    batch_ = batch]. *)
Definition select_batch (batch : pyobj) : result pyobj :=
  try_except (fst (next batch)) BaseException_class (Ok batch).

(** Lines 64-76: everything after the batch has been chosen. *)
Definition forward_on (batch_ : pyobj) (a : Args)
    : result (loss * mems * string) :=
  rbind (process_batch batch_ a) (fun '(tokens, _, labels, position_ids, attention_mask) =>
  let '(logits, mems_) := model tokens position_ids attention_mask in
  Ok (cross_entropy (to_float logits) labels, mems_, "bert"%string)).

Definition cross_entropy_forward_step (batch : pyobj) (a : Args)
    : result (loss * mems * string) :=
  rbind (select_batch batch) (fun batch_ => forward_on batch_ a).

End ForwardStep.

Arguments BatchRecord {tensor} fields.
Arguments Iterator {tensor} pending at_end.

End Forward.

(* ===================================================================== *)
(** * [_build_infinite_size_dataloader] *)
(* ===================================================================== *)

Module Cycler.

Section Generator.

Variable A : Type.

(** The wrapped data loader: [dataloader k] is the finite sequence delivered
    by the iterator that the [k]-th call of [dataloader.__iter__()] returns. *)
Variable dataloader : nat -> list A.

(** The generator frame between two [yield]s: what the current iterator
    still holds and how many iterators have been requested so far. *)
Record frame : Type := mkFrame {
  iterator : list A;
  built : nat
}.

(** [iterator.__next__()] on a data-loader iterator. *)
Definition iterator_next (it : list A) : result (A * list A) :=
  match it with
  | [] => Raise StopIteration
  | x :: rest => Ok (x, rest)
  end.

(** Line 103, run when the generator is started. *)
Definition start : frame :=
  {| iterator := dataloader 0; built := 1 |}.

(** Line 108. *)
Definition rebuild (f : frame) : frame :=
  {| iterator := dataloader (built f); built := S (built f) |}.

(** One turn of the [while True] loop: either a value is yielded, or the
    handler of [except StopIteration] has run and the loop goes round again,
    or another exception leaves the generator. *)
Inductive turn : Type :=
  | Yielded (x : A) (f : frame)
  | Again (f : frame)
  | Escaped (e : exn).

Definition loop_turn (f : frame) : turn :=
  match iterator_next (iterator f) with
  | Ok (x, rest) => Yielded x {| iterator := rest; built := built f |}
  | Raise e =>
      if exn_isinstance e StopIteration_class then Again (rebuild f)
      else Escaped e
  end.

(** [next(generator)]: the loop runs until it yields.  [fuel] bounds the
    number of turns; [None] means the bound was reached without a yield. *)
Fixpoint generator_next (fuel : nat) (f : frame) : option (result (A * frame)) :=
  match fuel with
  | O => None
  | S fuel' =>
      match loop_turn f with
      | Yielded x f' => Some (Ok (x, f'))
      | Again f' => generator_next fuel' f'
      | Escaped e => Some (Raise e)
      end
  end.

(** Drawing [n] elements in a row from the generator. *)
Fixpoint draw (fuel : nat) (n : nat) (f : frame)
    : option (result (list A * frame)) :=
  match n with
  | O => Some (Ok ([], f))
  | S n' =>
      match generator_next fuel f with
      | None => None
      | Some (Raise e) => Some (Raise e)
      | Some (Ok (x, f')) =>
          match draw fuel n' f' with
          | None => None
          | Some (Raise e) => Some (Raise e)
          | Some (Ok (xs, f'')) => Some (Ok (x :: xs, f''))
          end
      end
  end.

End Generator.

Arguments mkFrame {A} iterator built.
Arguments iterator {A} f.
Arguments built {A} f.

End Cycler.

(* ===================================================================== *)
(** * [build_data_loader] *)
(* ===================================================================== *)

Module Loader.

Local Open Scope nat_scope.

Section Sampler.

(** [build_data_loader] only composes two classes of PyTorch,
    [torch.utils.data.distributed.DistributedSampler] (called with its
    defaults [shuffle=True], [seed=0], [drop_last=False]) and
    [torch.utils.data.DataLoader] (whose [drop_last] is the function's
    argument).  Their code is PyTorch's, not the repository's; the
    definitions of this section follow PyTorch's documented algorithm:
    permute the indices, pad the permutation with its own leading indices up
    to a multiple of the number of replicas, give replica [rank] every
    [num_replicas]-th index starting at [rank], and cut each replica's
    indices into consecutive batches.  The random permutation itself is a
    parameter. *)
Variable randperm : Z -> nat -> list nat.

(** [math.ceil(a / b)]. *)
Definition ceil_div (a b : nat) : nat := (a + b - 1) / b.

Definition num_samples (n num_replicas : nat) : nat := ceil_div n num_replicas.

Definition total_size (n num_replicas : nat) : nat :=
  num_samples n num_replicas * num_replicas.

(** The padding step of the sampler. *)
Definition pad (indices : list nat) (total : nat) : list nat :=
  let padding_size := total - length indices in
  if padding_size <=? length indices then
    indices ++ firstn padding_size indices
  else
    indices ++ firstn padding_size
      (concat (repeat indices (ceil_div padding_size (length indices)))).

(** [range(start, stop, step)] and the slice [l[start:stop:step]]. *)
Definition range_step (start stop step : nat) : list nat :=
  map (fun j => start + j * step) (seq 0 (ceil_div (stop - start) step)).

Definition item_at {A} (l : list A) (p : nat) : list A :=
  match nth_error l p with
  | Some x => [x]
  | None => []
  end.

Definition slice_step {A} (l : list A) (start stop step : nat) : list A :=
  flat_map (item_at l) (range_step start stop step).

(** The indices the sampler of replica [rank] delivers once
    [set_epoch(epoch)] has been called. *)
Definition sampler_indices (n num_replicas rank : nat) (epoch : Z)
    : list nat :=
  let indices := randperm (0 + epoch)%Z n in
  let indices := pad indices (total_size n num_replicas) in
  slice_step indices rank (total_size n num_replicas) num_replicas.

(** The batch sampler of [DataLoader]: indices are collected into [batch]
    and handed over each time [batch_size] of them are there; what remains at
    the end is handed over unless [drop_last]. *)
Fixpoint batch_sampler (batch_size : nat) (drop_last : bool)
    (batch : list nat) (indices : list nat) : list (list nat) :=
  match indices with
  | [] => if negb drop_last && (0 <? length batch) then [batch] else []
  | idx :: rest =>
      let batch' := batch ++ [idx] in
      if length batch' =? batch_size
      then batch' :: batch_sampler batch_size drop_last [] rest
      else batch_sampler batch_size drop_last batch' rest
  end.

(** The index batches one pass over [build_data_loader(dataset, batch_size,
    num_workers, drop_last)] delivers on replica [rank] of [world_size],
    for a dataset of [n] elements. *)
Definition build_data_loader (n batch_size : nat) (drop_last : bool)
    (world_size rank : nat) (epoch : Z) : list (list nat) :=
  batch_sampler batch_size drop_last []
    (sampler_indices n world_size rank epoch).

(** The indices replica [rank] is assigned in an epoch: those of its
    batches. *)
Definition assigned (n batch_size : nat) (drop_last : bool)
    (world_size rank : nat) (epoch : Z) : list nat :=
  concat (build_data_loader n batch_size drop_last world_size rank epoch).

(** The assignments of all replicas, rank after rank. *)
Definition all_assigned (n batch_size : nat) (drop_last : bool)
    (world_size : nat) (epoch : Z) : list nat :=
  flat_map (fun rank => assigned n batch_size drop_last world_size rank epoch)
    (seq 0 world_size).

End Sampler.

End Loader.

(* ===================================================================== *)
(** * [_train] *)
(* ===================================================================== *)

Module Train.

(** The loop is modelled with the events it causes at its collaborators
    ([train_step], [report_iteration_metrics], [save_checkpoint],
    [evaluate_and_print_results], the sampler and the callback), which are
    taken to return; timers, printing and [model.train()] play no part in
    the control flow and are left out. *)

(** The two places [save_checkpoint] is called from. *)
Inductive save_site : Type :=
  | AtInterval     (* line 177 *)
  | AtEpochEnd.    (* line 187 *)

Section Loop.

(** Batches and losses are opaque; [world] is whatever [train_step] reads
    and updates (model, optimizer, scheduler). *)
Variables batch loss world : Type.
Variable loss_zero : loss.
Variable loss_add : loss -> loss -> loss.
Variable train_step : world -> batch -> world * loss.

(** [train_dataloader s] is the finite sequence of batches one pass over the
    training data loader delivers after [sampler.set_epoch(s)]. *)
Variable train_dataloader : Z -> list batch.

(** Whether [end_of_epoch_callback] is not [None]. *)
Variable end_of_epoch_callback : bool.

Variable a : Args.

(** What the loop does to its collaborators, in the order it does it.
    [report_iteration_metrics] is handed [args.iteration] and the mean
    [avg_lm_loss = total_lm_loss.item() / args.log_interval], which is
    recorded by its two operands: the accumulated loss and the interval it
    is divided by. *)
Inductive event : Type :=
  | SetEpoch (sampler_epoch : Z)
  | DrawBatch (epoch iteration_ : Z) (b : batch)
  | TrainStep (b : batch)
  | ReportMetrics (iteration : Z) (total_lm_loss : loss) (log_interval : Z)
  | SaveCheckpoint (site : save_site) (iteration : Z)
  | Evaluate (iteration : Z)
  | EndOfEpochCallback (epoch : Z).

(** [args.iteration], the locals [total_lm_loss] and [start_iteration], the
    collaborators' state and the events so far. *)
Record state : Type := mkState {
  iteration : Z;
  total_lm_loss : loss;
  start_iteration : Z;
  the_world : world;
  trace : list event
}.

Definition set_iteration (v : Z) (s : state) : state :=
  mkState v (total_lm_loss s) (start_iteration s) (the_world s) (trace s).
Definition set_total_lm_loss (v : loss) (s : state) : state :=
  mkState (iteration s) v (start_iteration s) (the_world s) (trace s).
Definition set_start_iteration (v : Z) (s : state) : state :=
  mkState (iteration s) (total_lm_loss s) v (the_world s) (trace s).
Definition set_world (v : world) (s : state) : state :=
  mkState (iteration s) (total_lm_loss s) (start_iteration s) v (trace s).
Definition add_event (e : event) (s : state) : state :=
  mkState (iteration s) (total_lm_loss s) (start_iteration s) (the_world s)
    (trace s ++ [e]).

(** Statements run on the state and may raise; the state reached when an
    exception is raised is kept, since the events before it did happen. *)
Definition M (A : Type) : Type := state -> state * result A.

Definition ret {A} (x : A) : M A := fun s => (s, Ok x).

Definition bind {A B} (m : M A) (k : A -> M B) : M B :=
  fun s =>
    match m s with
    | (s', Ok x) => k x s'
    | (s', Raise e) => (s', Raise e)
    end.

Definition lift {A} (r : result A) : M A := fun s => (s, r).
Definition get : M state := fun s => (s, Ok s).
Definition modify (f : state -> state) : M unit := fun s => (f s, Ok tt).
Definition emit (e : event) : M unit := modify (add_event e).
Definition when (c : bool) (m : M unit) : M unit := if c then m else ret tt.

Notation "x <- m ;; k" := (bind m (fun x => k))
  (at level 61, m at next level, right associativity).
Notation "m ;; k" := (bind m (fun _ => k))
  (at level 61, right associativity).

(** A [for] loop over a finite sequence. *)
Fixpoint for_each {A} (body : A -> M unit) (l : list A) : M unit :=
  match l with
  | [] => ret tt
  | x :: rest => body x ;; for_each body rest
  end.

(** Lines 160-163: one training step. *)
Definition run_train_step (b : batch) : M unit :=
  s <- get ;;
  let out := train_step (the_world s) b in
  let lm_loss := snd out in
  modify (set_world (fst out)) ;;
  emit (TrainStep b) ;;
  modify (fun s => set_iteration (iteration s + 1) s) ;;
  modify (fun s => set_total_lm_loss (loss_add (total_lm_loss s) lm_loss) s).

(** Lines 165-183: logging, checkpointing and evaluation after a step. *)
Definition after_step : M unit :=
  s <- get ;;
  c <- lift (Interval.should_log a (iteration s)) ;;
  when c (k <- lift (Interval.log_divisor a) ;;
          emit (ReportMetrics (iteration s) (total_lm_loss s) k) ;;
          modify (set_total_lm_loss loss_zero)) ;;
  c <- lift (Interval.should_save a (iteration s)) ;;
  when c (emit (SaveCheckpoint AtInterval (iteration s))) ;;
  c <- lift (Interval.should_eval a (iteration s)) ;;
  when c (emit (Evaluate (iteration s))).

(** Lines 151-183: the body of the inner loop for one enumerated batch. *)
Definition batch_body (epoch : Z) (ib : Z * batch) : M unit :=
  let '(iteration_, b) := ib in
  emit (DrawBatch epoch iteration_ b) ;;
  s <- get ;;
  if iteration_ <? start_iteration s then ret tt
  else
    modify (set_start_iteration 0) ;;
    run_train_step b ;;
    after_step.

(** Lines 144-191: the body of the outer loop for one epoch. *)
Definition epoch_body (epoch : Z) : M unit :=
  emit (SetEpoch (seed a + epoch)) ;;
  for_each (batch_body epoch) (enumerate (train_dataloader (seed a + epoch))) ;;
  s <- get ;;
  when (truthy_str (save a)) (emit (SaveCheckpoint AtEpochEnd (iteration s))) ;;
  when end_of_epoch_callback (emit (EndOfEpochCallback epoch)).

(** Line 144: the outer loop, from a given first epoch. *)
Definition train_epochs (start_epoch : Z) : M unit :=
  for_each epoch_body (range start_epoch (epochs a)).

(** Lines 136-140: the counter is reset, then the starting epoch and the
    number of batches to skip are derived from it. *)
Definition train_prologue : M Z :=
  modify (set_iteration 0) ;;
  modify (set_total_lm_loss loss_zero) ;;
  s <- get ;;
  p <- lift (Interval.resume_position (iteration s) (train_iters_per_epoch a)) ;;
  modify (set_start_iteration (snd p)) ;;
  ret (fst p).

Definition _train : M unit :=
  start_epoch <- train_prologue ;;
  train_epochs start_epoch.

(** The state [_train] is entered in: [args.iteration] holds whatever was
    stored there before, nothing has happened yet. *)
Definition entry_state (iteration0 : Z) (w : world) : state :=
  mkState iteration0 loss_zero 0 w [].

(** Readings of a trace. *)
Definition reported (t : list event) : list Z :=
  flat_map (fun e => match e with ReportMetrics i _ _ => [i] | _ => [] end) t.
Definition saved (site : save_site) (t : list event) : list Z :=
  flat_map (fun e =>
    match e, site with
    | SaveCheckpoint AtInterval i, AtInterval => [i]
    | SaveCheckpoint AtEpochEnd i, AtEpochEnd => [i]
    | _, _ => []
    end) t.
Definition checkpoints (t : list event) : list (save_site * Z) :=
  flat_map (fun e => match e with SaveCheckpoint x i => [(x, i)] | _ => [] end) t.
Definition evaluated (t : list event) : list Z :=
  flat_map (fun e => match e with Evaluate i => [i] | _ => [] end) t.
Definition stepped (t : list event) : list batch :=
  flat_map (fun e => match e with TrainStep b => [b] | _ => [] end) t.
Definition drawn (t : list event) : list (Z * Z * batch) :=
  flat_map (fun e => match e with DrawBatch ep i b => [(ep, i, b)] | _ => [] end) t.
Definition epochs_set (t : list event) : list Z :=
  flat_map (fun e => match e with SetEpoch s => [s] | _ => [] end) t.

(** The iterations at which an interval-driven action was taken. *)
Definition interval_actions (t : list event) : list Z :=
  flat_map (fun e =>
    match e with
    | ReportMetrics i _ _ => [i]
    | SaveCheckpoint AtInterval i => [i]
    | Evaluate i => [i]
    | _ => []
    end) t.

(** An event of [after_step] taken at iteration [n]. *)
Definition action_at (n : Z) (e : event) : Prop :=
  match e with
  | ReportMetrics i _ _ => i = n
  | SaveCheckpoint AtInterval i => i = n
  | Evaluate i => i = n
  | _ => False
  end.

(** No interval-driven action has been taken while the counter was zero. *)
Definition action_free_start (s : state) : Prop :=
  0 <= iteration s /\ Forall (fun i => 1 <= i) (interval_actions (trace s)).

(** The log interval is usable: an integer other than zero. *)
Definition log_interval_usable : Prop :=
  exists k, log_interval a = Some k /\ k <> 0.

(** The batches of an epoch as the loop labels them when drawing. *)
Definition labelled (epoch : Z) (bs : list (Z * batch)) : list (Z * Z * batch) :=
  map (fun ib => (epoch, fst ib, snd ib)) bs.

End Loop.

Arguments SetEpoch {batch loss} sampler_epoch.
Arguments DrawBatch {batch loss} epoch iteration_ b.
Arguments TrainStep {batch loss} b.
Arguments ReportMetrics {batch loss} iteration total_lm_loss log_interval.
Arguments SaveCheckpoint {batch loss} site iteration.
Arguments Evaluate {batch loss} iteration.
Arguments EndOfEpochCallback {batch loss} epoch.
Arguments mkState {batch loss world}.
Arguments iteration {batch loss world} s.
Arguments total_lm_loss {batch loss world} s.
Arguments start_iteration {batch loss world} s.
Arguments the_world {batch loss world} s.
Arguments trace {batch loss world} s.
Arguments reported {batch loss} t.
Arguments saved {batch loss} site t.
Arguments checkpoints {batch loss} t.
Arguments evaluated {batch loss} t.
Arguments stepped {batch loss} t.
Arguments drawn {batch loss} t.
Arguments epochs_set {batch loss} t.
Arguments interval_actions {batch loss} t.
Arguments action_at {batch loss} n e.
Arguments action_free_start {batch loss world} s.
Arguments labelled {batch} epoch bs.

End Train.

(* ===================================================================== *)
(** * [finetune] *)
(* ===================================================================== *)

Module Finetune.

(** A model handle.  The wrapper classes ([LocalDDP] and [TorchDDP], the two
    data-parallel wrappers, and [FP16_Module]) are imported from other
    packages; the code relies on nothing but their attribute [module], which
    holds what they wrap.  Any other module either has an attribute [model]
    (the network it is built around) or has none. *)
Inductive handle : Type :=
  | LocalDDP (module_ : handle)
  | TorchDDP (module_ : handle)
  | FP16_Module (module_ : handle)
  | WithModel (name : string) (model : handle)
  | Plain (name : string).

(** Lines 227-228. *)
Definition unwrap_data_parallel (m : handle) : handle :=
  match m with
  | LocalDDP inner | TorchDDP inner => inner
  | _ => m
  end.

(** Lines 229-230. *)
Definition unwrap_fp16 (m : handle) : handle :=
  match m with
  | FP16_Module inner => inner
  | _ => m
  end.

(** Lines 226-230: the value of the local [module] when line 231 is
    reached. *)
Definition resolve_trainable_module (model_ : handle) : handle :=
  unwrap_fp16 (unwrap_data_parallel model_).

(** [module.model]; the wrappers expose [module] only. *)
Definition getattr_model (m : handle) : result handle :=
  match m with
  | WithModel _ inner => Ok inner
  | _ => Raise AttributeError
  end.

(** The first argument of [load_checkpoint] on line 231. *)
Definition load_target (model_ : handle) : result handle :=
  getattr_model (resolve_trainable_module model_).

Section Driver.

Variables batch loss world : Type.
Variable loss_zero : loss.
Variable loss_add : loss -> loss -> loss.
Variable train_step : world -> batch -> world * loss.
Variable train_dataloader : Z -> list batch.

(** [len(train_dataloader)]. *)
Variable len_train_dataloader : Z.

(** Whether a callback provider was passed. *)
Variable end_of_epoch_callback : bool.

(** Outcome of the collaborator [load_checkpoint] on a given module. *)
Variable load_checkpoint : handle -> result unit.

(** What [finetune] does from the checkpoint section on: the call of
    [load_checkpoint] with its first argument, the optimizer's hook, the
    events of the training loop, and the call
    [end_of_epoch_callback(model, epoch=..., output_predictions=...)] of
    line 252 with its two keyword arguments. *)
Inductive event : Type :=
  | LoadCheckpoint (target : handle)
  | ModelParamsToMasterParams
  | Training (e : Train.event batch loss)
  | EvaluationOnlyCallback (epoch : Z) (output_predictions : bool).

(** Lines 225-235. *)
Definition load_pretrained (a : Args) (model_ : handle)
    : list event * result unit :=
  match load a with
  | None => ([], Ok tt)
  | Some _ =>
      match load_target model_ with
      | Raise e => ([], Raise e)
      | Ok target =>
          match load_checkpoint target with
          | Raise e => ([LoadCheckpoint target], Raise e)
          | Ok _ =>
              if fp16 a
              then ([LoadCheckpoint target; ModelParamsToMasterParams], Ok tt)
              else ([LoadCheckpoint target], Ok tt)
          end
      end
  end.

(** Line 117, reached when [args.epochs > 0]. *)
Definition with_train_iters (a : Args) : Args :=
  if 0 <? epochs a then
    mkArgs (epochs a) len_train_dataloader (seed a) (log_interval a) (save a)
      (save_interval a) (eval_interval a) (load a) (fp16 a)
  else a.

(** Lines 244-252. *)
Definition train_or_evaluate (a : Args) (iteration0 : Z) (w : world)
    : list event * result unit :=
  if 0 <? epochs a then
    let '(s, r) :=
      Train._train batch loss world loss_zero loss_add train_step
        train_dataloader end_of_epoch_callback a
        (Train.entry_state batch loss world loss_zero iteration0 w) in
    (map Training (Train.trace s), r)
  else
    (if end_of_epoch_callback then [EvaluationOnlyCallback (-1) true] else [],
     Ok tt).

(** [finetune], from the data loaders on.  [iteration0] is what
    [args.iteration] holds when training is reached. *)
Definition finetune (a : Args) (model_ : handle) (iteration0 : Z) (w : world)
    : list event * result unit :=
  let a := with_train_iters a in
  match load_pretrained a model_ with
  | (t, Raise e) => (t, Raise e)
  | (t, Ok _) =>
      let '(t', r) := train_or_evaluate a iteration0 w in
      (t ++ t', r)
  end.

End Driver.

Arguments LoadCheckpoint {batch loss} target.
Arguments ModelParamsToMasterParams {batch loss}.
Arguments Training {batch loss} e.
Arguments EvaluationOnlyCallback {batch loss} epoch output_predictions.

End Finetune.

(* ===================================================================== *)
(** * Concrete configurations *)
(* ===================================================================== *)

Module Examples.

(** Two epochs of five iterations, logging every 2, checkpointing every 5
    into a configured directory, evaluating every 10. *)
Definition end_to_end_args (sd : Z) (ld : option string) (fp : bool) : Args :=
  mkArgs 2 5 sd (Some 2) (Some "checkpoints"%string) (Some 5) (Some 10) ld fp.

(** The same run with no save interval at all. *)
Definition no_save_interval_args (sd : Z) (ld : option string) (fp : bool)
    : Args :=
  mkArgs 2 5 sd (Some 2) (Some "checkpoints"%string) None (Some 10) ld fp.

(** The same intervals with no checkpoint directory ([args.save] is
    [None]), and with no log interval. *)
Definition no_save_args : Args :=
  mkArgs 2 5 0 (Some 2) None (Some 5) (Some 10) None false.
Definition no_log_args : Args :=
  mkArgs 2 5 0 None (Some "checkpoints"%string) (Some 5) (Some 10) None false.

(** A training loader of five batches per epoch; batch [10 * e + i] is the
    [i]-th batch delivered after [set_epoch(e)]. *)
Definition numbered_batches (sampler_epoch : Z) : list Z :=
  map (fun i => 10 * sampler_epoch + i) [0; 1; 2; 3; 4].

(** A task model built around a language model, and a configuration that
    loads a pretrained checkpoint in reduced precision. *)
Definition language_model : Finetune.handle :=
  Finetune.Plain "language model".
Definition task_model : Finetune.handle :=
  Finetune.WithModel "task model" language_model.
Definition fp16_args : Args :=
  mkArgs 0 0 0 (Some 1) None None None (Some "pretrained"%string) true.

(** No epoch to train for and no checkpoint to load. *)
Definition no_epoch_args : Args :=
  mkArgs 0 0 0 (Some 1) None None None None false.

(** A generator that leaves the indices in order, whatever the seed. *)
Definition in_order (s : Z) (n : nat) : list nat := seq 0 n.

(** The ways a module [raw] reaches [finetune] wrapped: not at all, in a
    data-parallel wrapper, in the precision wrapper, or in both (the
    data-parallel wrapper outermost). *)
Definition wrappings (raw : Finetune.handle) : list Finetune.handle :=
  [ raw;
    Finetune.LocalDDP raw; Finetune.TorchDDP raw;
    Finetune.FP16_Module raw;
    Finetune.LocalDDP (Finetune.FP16_Module raw);
    Finetune.TorchDDP (Finetune.FP16_Module raw) ].

End Examples.

(* ===================================================================== *)
(** * [_build_train_valid_dataloaders] *)
(* ===================================================================== *)

Module Dataloaders.

(** [len(data_loader)] as PyTorch computes it for the loader of
    [Loader.build_data_loader]: the sampler of a replica holds
    [num_samples] indices, and the batch sampler counts
    [num_samples // batch_size] batches when the tail is dropped and
    [(num_samples + batch_size - 1) // batch_size] otherwise. *)
Definition loader_len (n batch_size : nat) (drop_last : bool)
    (world_size : nat) : nat :=
  let sampled := Loader.num_samples n world_size in
  if drop_last then (sampled / batch_size)%nat
  else ((sampled + batch_size - 1) / batch_size)%nat.

Section Build.

Variable randperm : Z -> nat -> list nat.

(** A batch is what the loader makes of the dataset elements at a list of
    indices (fetching and collating belong to PyTorch and the dataset). *)
Variable batch : Type.
Variable fetch_train fetch_valid : list nat -> batch.

(** [mpu.get_data_parallel_world_size()] and
    [mpu.get_data_parallel_rank()]. *)
Variables world_size rank : nat.

(** What the function returns and what it stores in [args]: the training
    loader as a function of the sampler epoch, the passes of the validation
    loader that the looped loader goes through, [args.train_iters_per_epoch]
    and [args.train_iters]. *)
Record dataloaders : Type := mkDataloaders {
  train_dataloader : Z -> list batch;
  valid_passes : nat -> list batch;
  built_train_iters_per_epoch : Z;
  built_train_iters : Z
}.

(** Lines 111-125, for a training set of [n_train] and a validation set of
    [n_valid] elements.  Both loaders are built with [drop_last=False]; the
    epoch of the validation sampler is never set and stays at its initial
    value 0, so every pass over the validation loader sees the same
    permutation. *)
Definition _build_train_valid_dataloaders
    (n_train n_valid batch_size : nat) (a : Args) : dataloaders :=
  let len_train := Z.of_nat (loader_len n_train batch_size false world_size) in
  {| train_dataloader := fun sampler_epoch =>
       map fetch_train
         (Loader.build_data_loader randperm n_train batch_size false
            world_size rank sampler_epoch);
     valid_passes := fun _ =>
       map fetch_valid
         (Loader.build_data_loader randperm n_valid batch_size false
            world_size rank 0);
     built_train_iters_per_epoch := len_train;
     built_train_iters := epochs a * len_train |}.

(** [args] as lines 117-118 leave it. *)
Definition args_after_build (n_train batch_size : nat) (a : Args) : Args :=
  mkArgs (epochs a)
    (Z.of_nat (loader_len n_train batch_size false world_size))
    (seed a) (log_interval a) (save a) (save_interval a) (eval_interval a)
    (load a) (fp16 a).

End Build.

Arguments train_dataloader {batch} d.
Arguments valid_passes {batch} d.
Arguments built_train_iters_per_epoch {batch} d.
Arguments built_train_iters {batch} d.

End Dataloaders.

(* ===================================================================== *)
(** * Further readings of runs *)
(* ===================================================================== *)

Module Schedule.

(** A test that came out true (an exception is not a firing). *)
Definition fired (r : result bool) : bool :=
  match r with
  | Ok true => true
  | _ => false
  end.

(** The iterations of [lo .. hi - 1] at which a test fires, in order. *)
Definition firing (test : Z -> result bool) (lo hi : Z) : list Z :=
  filter (fun i => fired (test i)) (range lo hi).

Section Readings.

Variables batch loss world : Type.
Variable loss_add : loss -> loss -> loss.
Variable train_step : world -> batch -> world * loss.

(** The epochs the end-of-epoch callback was called with. *)
Definition called_back (t : list (Train.event batch loss)) : list Z :=
  flat_map (fun e =>
    match e with Train.EndOfEpochCallback ep => [ep] | _ => [] end) t.

(** A mean, as the accumulated loss and the interval [k] it is divided
    by. *)
Definition over (k : Z) (total : loss) : loss * Z := (total, k).

(** The means handed to [report_iteration_metrics], each as the accumulated
    loss and the interval it is divided by. *)
Definition reported_means (t : list (Train.event batch loss))
    : list (loss * Z) :=
  flat_map (fun e =>
    match e with Train.ReportMetrics _ total k => [(total, k)] | _ => [] end) t.

(** The accumulated losses those means are taken of. *)
Definition reported_totals (t : list (Train.event batch loss)) : list loss :=
  map fst (reported_means t).

(** The collaborators' state after training on a sequence of batches. *)
Definition world_after (w : world) (bs : list batch) : world :=
  fold_left (fun w b => fst (train_step w b)) bs w.

(** The losses [train_step] returns along a sequence of batches. *)
Fixpoint losses (w : world) (bs : list batch) : list loss :=
  match bs with
  | [] => []
  | b :: rest => snd (train_step w b) :: losses (fst (train_step w b)) rest
  end.

(** [total_lm_loss] after adding a sequence of losses to it. *)
Definition accumulate (total : loss) (ls : list loss) : loss :=
  fold_left loss_add ls total.

End Readings.

Arguments called_back {batch loss} t.
Arguments over {loss} k total.
Arguments reported_means {batch loss} t.
Arguments reported_totals {batch loss} t.

(** The fields [process_batch] reads from a batch record. *)
Definition required_fields : list string :=
  ["text"; "types"; "label"; "padding_mask"]%string.

(** ** The events of a run, written out

    What a run of the loop that skips nothing and meets no exception does,
    as a list computed from the batches: the closed form the loop is
    compared with. *)

Section Expected.

Variables batch loss world : Type.
Variable loss_zero : loss.
Variable loss_add : loss -> loss -> loss.
Variable train_step : world -> batch -> world * loss.
Variable train_dataloader : Z -> list batch.
Variable end_of_epoch_callback : bool.
Variable a : Args.

(** The actions that follow the step that brought the counter to [it]. *)
Definition interval_events (it : Z) (total : loss)
    : list (Train.event batch loss) :=
  (if fired (Interval.should_log a it)
   then match log_interval a with
        | Some k => [Train.ReportMetrics it total k]
        | None => []
        end
   else [])
  ++ (if fired (Interval.should_save a it)
      then [Train.SaveCheckpoint Train.AtInterval it] else [])
  ++ (if fired (Interval.should_eval a it)
      then [Train.Evaluate it] else []).

(** [total_lm_loss] once those actions are done. *)
Definition total_after_actions (it : Z) (total : loss) : loss :=
  if fired (Interval.should_log a it) then loss_zero else total.

(** The events of the steps on the batches [bs], numbered from [j], of
    epoch [ep], for a counter at [it], an accumulator at [total] and
    collaborators in state [w]. *)
Fixpoint steps_events (ep : Z) (j : nat) (it : Z) (total : loss) (w : world)
    (bs : list batch) : list (Train.event batch loss) :=
  match bs with
  | [] => []
  | b :: rest =>
      let total' := loss_add total (snd (train_step w b)) in
      Train.DrawBatch ep (Z.of_nat j) b :: Train.TrainStep b
        :: interval_events (it + 1) total'
        ++ steps_events ep (S j) (it + 1)
             (total_after_actions (it + 1) total')
             (fst (train_step w b)) rest
  end.

(** The accumulator after those steps. *)
Fixpoint total_after_steps (it : Z) (total : loss) (w : world)
    (bs : list batch) : loss :=
  match bs with
  | [] => total
  | b :: rest =>
      total_after_steps (it + 1)
        (total_after_actions (it + 1)
           (loss_add total (snd (train_step w b))))
        (fst (train_step w b)) rest
  end.

(** The events of one epoch. *)
Definition epoch_events (ep it : Z) (total : loss) (w : world)
    : list (Train.event batch loss) :=
  let bs := train_dataloader (seed a + ep) in
  Train.SetEpoch (seed a + ep)
    :: steps_events ep 0 it total w bs
    ++ (if truthy_str (save a)
        then [Train.SaveCheckpoint Train.AtEpochEnd
                (it + Z.of_nat (length bs))]
        else [])
    ++ (if end_of_epoch_callback then [Train.EndOfEpochCallback ep] else []).

(** The events of a sequence of epochs. *)
Fixpoint epochs_events (eps : list Z) (it : Z) (total : loss) (w : world)
    : list (Train.event batch loss) :=
  match eps with
  | [] => []
  | ep :: rest =>
      let bs := train_dataloader (seed a + ep) in
      epoch_events ep it total w
        ++ epochs_events rest (it + Z.of_nat (length bs))
             (total_after_steps it total w bs)
             (world_after batch loss world train_step w bs)
  end.

(** All the batches of a sequence of epochs, in the order they are drawn. *)
Definition batches_of (eps : list Z) : list batch :=
  flat_map (fun ep => train_dataloader (seed a + ep)) eps.

(** The accumulated losses of the reports made along the steps on [bs]. *)
Fixpoint step_totals (it : Z) (total : loss) (w : world) (bs : list batch)
    : list loss :=
  match bs with
  | [] => []
  | b :: rest =>
      let total' := loss_add total (snd (train_step w b)) in
      (if fired (Interval.should_log a (it + 1)) then [total'] else [])
      ++ step_totals (it + 1) (total_after_actions (it + 1) total')
           (fst (train_step w b)) rest
  end.

(** The sums of the successive full windows of [k] losses. *)
Definition window_totals (k : nat) (ls : list loss) : list loss :=
  map (fun j => accumulate loss loss_add loss_zero
                  (firstn k (skipn (j * k) ls)))
    (seq 0 (length ls / k)).

End Expected.

End Schedule.

(* ===================================================================== *)
(** * Properties: interval decisions *)
(* ===================================================================== *)

Module IntervalFacts.

Import Interval.

Lemma mod_attr_ok (it : Z) (o : option Z) (r : Z) :
  mod_attr it o = Ok r <-> exists k, o = Some k /\ k <> 0 /\ r = it mod k.
Proof.
  unfold mod_attr, mod_. split.
  - destruct o as [k|]; [|discriminate].
    destruct (Z.eqb_spec k 0) as [->|Hk]; [discriminate|].
    intros [= <-]. exists k. auto.
  - intros (k & -> & Hk & ->).
    destruct (Z.eqb_spec k 0); [contradiction|reflexivity].
Qed.

Lemma truthy_int_spec (o : option Z) :
  truthy_int o = true <-> exists k, o = Some k /\ k <> 0.
Proof.
  unfold truthy_int. split.
  - destruct o as [k|]; [|discriminate].
    destruct (Z.eqb_spec k 0); [discriminate|]. intros _. exists k. auto.
  - intros (k & -> & Hk). destruct (Z.eqb_spec k 0); [contradiction|reflexivity].
Qed.

Lemma should_log_true (a : Args) (it : Z) :
  should_log a it = Ok true <->
  exists k, log_interval a = Some k /\ k <> 0 /\ it mod k = 0.
Proof.
  unfold should_log. split.
  - destruct (mod_attr it (log_interval a)) as [r|e] eqn:E; [|discriminate].
    apply mod_attr_ok in E as (k & Hk & Hk0 & ->). cbn.
    intros [= H]. apply Z.eqb_eq in H. exists k. auto.
  - intros (k & Hk & Hk0 & Hm).
    assert (E : mod_attr it (log_interval a) = Ok (it mod k))
      by (apply mod_attr_ok; exists k; auto).
    rewrite E. cbn. rewrite Hm. reflexivity.
Qed.

Lemma should_eval_true (a : Args) (it : Z) :
  should_eval a it = Ok true <->
  exists k, eval_interval a = Some k /\ k <> 0 /\ it mod k = 0.
Proof.
  unfold should_eval. split.
  - destruct (truthy_int (eval_interval a)) eqn:T; [|discriminate].
    destruct (mod_attr it (eval_interval a)) as [r|e] eqn:E; [|discriminate].
    apply mod_attr_ok in E as (k & Hk & Hk0 & ->). cbn.
    intros [= H]. apply Z.eqb_eq in H. exists k. auto.
  - intros (k & Hk & Hk0 & Hm).
    assert (T : truthy_int (eval_interval a) = true)
      by (apply truthy_int_spec; exists k; auto).
    assert (E : mod_attr it (eval_interval a) = Ok (it mod k))
      by (apply mod_attr_ok; exists k; auto).
    rewrite T, E. cbn. rewrite Hm. reflexivity.
Qed.

Lemma should_save_true (a : Args) (it : Z) :
  should_save a it = Ok true <->
  truthy_str (save a) = true /\
  exists k, save_interval a = Some k /\ k <> 0 /\ it mod k = 0.
Proof.
  unfold should_save. split.
  - destruct (truthy_str (save a)); [|discriminate].
    destruct (truthy_int (save_interval a)) eqn:T; [|discriminate].
    destruct (mod_attr it (save_interval a)) as [r|e] eqn:E; [|discriminate].
    apply mod_attr_ok in E as (k & Hk & Hk0 & ->). cbn.
    intros [= H]. apply Z.eqb_eq in H. split; [reflexivity|]. exists k. auto.
  - intros (S & k & Hk & Hk0 & Hm).
    assert (T : truthy_int (save_interval a) = true)
      by (apply truthy_int_spec; exists k; auto).
    assert (E : mod_attr it (save_interval a) = Ok (it mod k))
      by (apply mod_attr_ok; exists k; auto).
    rewrite S, T, E. cbn. rewrite Hm. reflexivity.
Qed.

(** The guarded decisions never raise. *)
Lemma should_save_total (a : Args) (it : Z) :
  exists b, should_save a it = Ok b.
Proof.
  unfold should_save.
  destruct (truthy_str (save a)); [|eauto].
  destruct (truthy_int (save_interval a)) eqn:T; [|eauto].
  apply truthy_int_spec in T as (k & Hk & Hk0).
  rewrite Hk. cbn. unfold mod_.
  destruct (Z.eqb_spec k 0); [contradiction|]. cbn. eauto.
Qed.

Lemma should_eval_total (a : Args) (it : Z) :
  exists b, should_eval a it = Ok b.
Proof.
  unfold should_eval.
  destruct (truthy_int (eval_interval a)) eqn:T; [|eauto].
  apply truthy_int_spec in T as (k & Hk & Hk0).
  rewrite Hk. cbn. unfold mod_.
  destruct (Z.eqb_spec k 0); [contradiction|]. cbn. eauto.
Qed.

Lemma should_log_total (a : Args) (it k : Z) :
  log_interval a = Some k -> k <> 0 ->
  should_log a it = Ok (it mod k =? 0).
Proof.
  intros Hk Hk0. unfold should_log. rewrite Hk. cbn. unfold mod_.
  destruct (Z.eqb_spec k 0); [contradiction|reflexivity].
Qed.

(** When the log test has fired, the division of line 168 goes through. *)
Lemma log_divisor_ok (a : Args) (it : Z) :
  should_log a it = Ok true ->
  exists k, log_interval a = Some k /\ k <> 0 /\ log_divisor a = Ok k.
Proof.
  intros H. apply should_log_true in H as (k & Hk & Hk0 & _).
  exists k. split; [exact Hk|]. split; [exact Hk0|].
  unfold log_divisor. rewrite Hk.
  destruct (Z.eqb_spec k 0); [contradiction|reflexivity].
Qed.

End IntervalFacts.

(* ===================================================================== *)
(** * Properties: the forward step's batch selection *)
(* ===================================================================== *)

Module ForwardFacts.

Import Forward.

Section Facts.

Variables tensor mems loss : Type.
Variable to_long to_float to_half : tensor -> tensor.
Variable make_position_ids : tensor -> result tensor.
Variable model : tensor -> tensor -> tensor -> tensor * mems.
Variable cross_entropy : tensor -> tensor -> loss.

Let step := cross_entropy_forward_step tensor mems loss to_long to_float
  to_half make_position_ids model cross_entropy.
Let on_record := forward_on tensor mems loss to_long to_float
  to_half make_position_ids model cross_entropy.

(** [except BaseException] catches whatever is raised. *)
Lemma base_exception_catches_all (e : exn) :
  exn_isinstance e BaseException_class = true.
Proof. reflexivity. Qed.

Lemma select_batch_total (batch : pyobj tensor) :
  exists batch_, select_batch tensor batch = Ok batch_.
Proof.
  unfold select_batch, try_except.
  destruct (fst (next tensor batch)) as [x|e]; cbn; eauto.
Qed.

Lemma select_batch_delivered (batch x : pyobj tensor) :
  fst (next tensor batch) = Ok x -> select_batch tensor batch = Ok x.
Proof. unfold select_batch. intros ->. reflexivity. Qed.

Lemma select_batch_record (fields : list (string * tensor)) :
  select_batch tensor (BatchRecord fields) = Ok (BatchRecord fields).
Proof. reflexivity. Qed.

(** C10: whatever exception drawing the next element from the argument
    raises (exhaustion, a type error for a plain record, an interrupt), it is
    swallowed and the argument itself is processed as the batch record; no
    argument at all makes the drawing step raise, a plain record is processed
    as it is and an iterator that delivers an element has that element
    processed. *)
Theorem forward_step_falls_back_on_argument
    (batch : pyobj tensor) (a : Args) (e : exn) :
  fst (next tensor batch) = Raise e ->
  select_batch tensor batch = Ok batch
  /\ step batch a = on_record batch a
  /\ (forall other : pyobj tensor,
        exists batch_, select_batch tensor other = Ok batch_
                       /\ step other a = on_record batch_ a)
  /\ (forall fields, step (BatchRecord fields) a = on_record (BatchRecord fields) a)
  /\ (forall x rest e', step (Iterator (x :: rest) e') a = on_record x a).
Proof.
  intros H. unfold step, on_record, cross_entropy_forward_step.
  assert (S : select_batch tensor batch = Ok batch).
  { unfold select_batch. rewrite H. reflexivity. }
  split; [exact S|]. split; [rewrite S; reflexivity|].
  split; [|split].
  - intros other. destruct (select_batch_total other) as [b_ Hb].
    exists b_. rewrite Hb. split; reflexivity.
  - intros fields. reflexivity.
  - intros x rest e'. reflexivity.
Qed.

End Facts.

(** An iterator interrupted from the keyboard: the interrupt is swallowed
    and the iterator itself is taken for the batch. *)
Lemma forward_step_falls_back_on_argument_witness :
  let interrupted : pyobj nat := Iterator [] KeyboardInterrupt in
  let a := mkArgs 1 1 0 (Some 1) None None None None false in
  select_batch nat interrupted = Ok interrupted
  /\ cross_entropy_forward_step nat unit nat id id id (fun t => Ok t)
       (fun t _ _ => (t, tt)) Nat.add interrupted a
     = forward_on nat unit nat id id id (fun t => Ok t)
       (fun t _ _ => (t, tt)) Nat.add interrupted a.
Proof.
  intros interrupted a.
  pose proof (forward_step_falls_back_on_argument nat unit nat id id id (fun t => Ok t)
    (fun t _ _ => (t, tt)) Nat.add interrupted a KeyboardInterrupt eq_refl)
    as (H1 & H2 & _).
  exact (conj H1 H2).
Defined.

End ForwardFacts.

(* ===================================================================== *)
(** * Properties: the looped data loader *)
(* ===================================================================== *)

Module CyclerFacts.

Import Cycler.

Local Open Scope nat_scope.

Section Facts.

Variable A : Type.
Variable dataloader : nat -> list A.

Let draw := draw A dataloader.
Let generator_next := generator_next A dataloader.

Lemma draw_app (fuel n m : nat) (f f' f'' : frame A) (xs ys : list A) :
  draw fuel n f = Some (Ok (xs, f')) ->
  draw fuel m f' = Some (Ok (ys, f'')) ->
  draw fuel (n + m) f = Some (Ok (xs ++ ys, f'')).
Proof.
  revert f xs. induction n as [|n IH]; intros f xs Hn Hm.
  - cbn in Hn. injection Hn as <- <-. exact Hm.
  - cbn in Hn |- *. fold generator_next in Hn |- *.
    destruct (generator_next fuel f) as [[[x f1]|e]|]; try discriminate.
    fold draw in Hn |- *.
    destruct (draw fuel n f1) as [[[xs1 f2]|e]|] eqn:E; try discriminate.
    injection Hn as <- <-.
    rewrite (IH f1 xs1 E Hm). reflexivity.
Qed.

(** What the current iterator still holds is delivered as it is. *)
Lemma draw_pending (fuel : nat) (c : list A) (b : nat) :
  1 <= fuel ->
  draw fuel (length c) (mkFrame c b) = Some (Ok (c, mkFrame [] b)).
Proof.
  intros Hf. destruct fuel as [|fuel]; [lia|].
  induction c as [|x c IH]; [reflexivity|].
  cbn. fold draw. cbn in IH. rewrite IH. reflexivity.
Qed.

(** Once the iterator is exhausted the next draws go through a fresh one. *)
Lemma draw_fresh_pass (fuel : nat) (l : list A) (b : nat) :
  2 <= fuel ->
  l <> [] ->
  dataloader b = l ->
  draw fuel (length l) (mkFrame [] b) = Some (Ok (l, mkFrame [] (S b))).
Proof.
  intros Hf Hl Hb.
  destruct l as [|x l]; [contradiction|].
  destruct fuel as [|[|fuel]]; try lia.
  pose proof (draw_pending (S (S fuel)) l (S b) ltac:(lia)) as P.
  cbn. unfold rebuild, loop_turn. cbn. rewrite Hb. cbn.
  fold draw. rewrite P. reflexivity.
Qed.

(** C4: for a data loader whose every pass delivers the same non-empty
    sequence [l], drawing [3 * length l] elements from the looped loader
    yields every one of them (no exhaustion reaches the caller, and two turns
    of the loop per draw suffice), and elements [n+1 .. 2n] equal elements
    [1 .. n]. *)
Theorem looped_loader_three_passes (l : list A) (fuel : nat) :
  l <> [] ->
  (forall k, dataloader k = l) ->
  2 <= fuel ->
  exists xs f,
    draw fuel (3 * length l) (start A dataloader) = Some (Ok (xs, f))
    /\ xs = l ++ l ++ l
    /\ firstn (length l) (skipn (length l) xs) = firstn (length l) xs.
Proof.
  intros Hl Hd Hf.
  exists (l ++ l ++ l), (mkFrame [] 3).
  split; [|split].
  - replace (3 * length l) with (length l + (length l + length l)) by lia.
    unfold start. rewrite (Hd 0).
    apply draw_app with (f' := mkFrame [] 1).
    + apply draw_pending. lia.
    + apply draw_app with (f' := mkFrame [] 2);
        apply draw_fresh_pass; auto.
  - reflexivity.
  - rewrite skipn_app, skipn_all, Nat.sub_diag. cbn [skipn app].
    rewrite !firstn_app, !firstn_all, Nat.sub_diag. reflexivity.
Qed.

End Facts.

Lemma looped_loader_three_passes_witness :
  exists xs f,
    Cycler.draw nat (fun _ => [10; 20; 30]) 2 9
      (start nat (fun _ => [10; 20; 30])) = Some (Ok (xs, f))
    /\ xs = [10; 20; 30] ++ [10; 20; 30] ++ [10; 20; 30]
    /\ firstn 3 (skipn 3 xs) = firstn 3 xs.
Proof.
  apply (looped_loader_three_passes nat (fun _ => [10; 20; 30]) [10; 20; 30] 2).
  - discriminate.
  - reflexivity.
  - lia.
Defined.

End CyclerFacts.

(* ===================================================================== *)
(** * Properties: loading the pretrained checkpoint *)
(* ===================================================================== *)

Module FinetuneFacts.

Import Finetune Examples.

Section Facts.

Variables batch loss world : Type.
Variable loss_zero : loss.
Variable loss_add : loss -> loss -> loss.
Variable train_step : world -> batch -> world * loss.
Variable train_dataloader : Z -> list batch.
Variable len_train_dataloader : Z.
Variable end_of_epoch_callback : bool.
Variable load_checkpoint : handle -> result unit.

Let load_pretrained := load_pretrained batch loss load_checkpoint.
Let finetune := finetune batch loss world loss_zero loss_add train_step
  train_dataloader len_train_dataloader end_of_epoch_callback load_checkpoint.

Lemma load_pretrained_head (a : Args) (path : string) (h target : handle) :
  load a = Some path ->
  load_target h = Ok target ->
  exists rest, fst (load_pretrained a h) = LoadCheckpoint target :: rest.
Proof.
  intros Hl Ht. unfold load_pretrained, Finetune.load_pretrained.
  rewrite Hl, Ht.
  destruct (load_checkpoint target); [destruct (fp16 a)|]; cbn; eauto.
Qed.

(** C5 (as the code has it): for every handle, one data-parallel layer is
    removed if it is outermost, then one precision layer if it is outermost
    by then, and nothing more: a data-parallel wrapper around a precision
    wrapper around [raw], either wrapper alone around [raw], all resolve to
    exactly [raw], and a handle that is no wrapper resolves to itself;
    layers in the reverse order or doubled are not all removed.  What the
    load collaborator receives is not the resolved module but its attribute
    [model]; a resolved module without that attribute makes the load section
    raise [AttributeError] with the collaborator not called. *)
Theorem load_receives_model_attribute
    (a : Args) (path : string) (h : handle) :
  load a = Some path ->
  resolve_trainable_module h
    = match h with
      | LocalDDP (FP16_Module raw) | TorchDDP (FP16_Module raw) => raw
      | LocalDDP raw | TorchDDP raw | FP16_Module raw => raw
      | WithModel _ _ | Plain _ => h
      end
  /\ (forall raw,
        resolve_trainable_module (FP16_Module (LocalDDP raw)) = LocalDDP raw
        /\ resolve_trainable_module (FP16_Module (TorchDDP raw)) = TorchDDP raw
        /\ resolve_trainable_module (LocalDDP (TorchDDP raw)) = TorchDDP raw
        /\ resolve_trainable_module (TorchDDP (TorchDDP raw)) = TorchDDP raw
        /\ resolve_trainable_module (FP16_Module (FP16_Module raw))
           = FP16_Module raw
        /\ resolve_trainable_module (TorchDDP (FP16_Module (FP16_Module raw)))
           = FP16_Module raw)
  /\ (forall name inner,
        In h (wrappings (WithModel name inner)) ->
        resolve_trainable_module h = WithModel name inner
        /\ load_target h = Ok inner)
  /\ (forall target,
        load_target h = Ok target <->
        exists name, resolve_trainable_module h = WithModel name target)
  /\ (forall target,
        load_target h = Ok target ->
        exists rest, fst (load_pretrained a h) = LoadCheckpoint target :: rest)
  /\ ((forall name inner, resolve_trainable_module h <> WithModel name inner) ->
      load_pretrained a h = ([], Raise AttributeError)).
Proof.
  intros Hl.
  assert (T : forall target,
             load_target h = Ok target <->
             exists name, resolve_trainable_module h = WithModel name target).
  { intros target. unfold load_target.
    destruct (resolve_trainable_module h) as [x|x|x|name inner|name];
      cbn [getattr_model]; split;
      try discriminate; try (intros [n Hn]; discriminate).
    - intros E. injection E as <-. exists name. reflexivity.
    - intros [n Hn]. injection Hn as _ <-. reflexivity. }
  split; [|split; [|split; [|split; [|split]]]].
  - destruct h as [[]|[]|x|name inner|name]; reflexivity.
  - intros raw. repeat split.
  - intros name inner Hin.
    assert (R : resolve_trainable_module h = WithModel name inner).
    { cbn in Hin.
      repeat (destruct Hin as [<-|Hin]; [reflexivity|]). contradiction. }
    split; [exact R|]. apply T. exists name. exact R.
  - exact T.
  - intros target Ht. apply load_pretrained_head with (path := path); assumption.
  - intros N. unfold load_pretrained, Finetune.load_pretrained. rewrite Hl.
    destruct (load_target h) as [target|e] eqn:E.
    + destruct (proj1 (T target) eq_refl) as [name E'].
      exfalso. exact (N name target E').
    + unfold load_target in E.
      destruct (resolve_trainable_module h); cbn in E; congruence.
Qed.






(** With no epoch configured and nothing to load, [finetune] trains on
    nothing and calls the end-of-epoch callback, if there is one, exactly
    once (with epoch [-1] and [output_predictions=True]). *)
Theorem evaluation_only_run (a : Args) (h : handle) (it0 : Z) (w : world) :
  epochs a <= 0 ->
  load a = None ->
  finetune a h it0 w
  = (if end_of_epoch_callback then [EvaluationOnlyCallback (-1) true] else [],
     Ok tt).
Proof.
  intros He Hl. unfold finetune, Finetune.finetune, with_train_iters,
    Finetune.load_pretrained, train_or_evaluate.
  destruct (Z.ltb_spec 0 (epochs a)) as [H|_]; [lia|].
  rewrite Hl. destruct (Z.ltb_spec 0 (epochs a)) as [H|_]; [lia|].
  reflexivity.
Qed.

End Facts.

Lemma evaluation_only_run_witness :
  finetune Z Z unit 0 Z.add (fun w b => (w, b)) numbered_batches 5 true
    (fun _ => Ok tt) no_epoch_args task_model 0 tt
  = ([EvaluationOnlyCallback (-1) true], Ok tt).
Proof.
  apply (evaluation_only_run Z Z unit 0 Z.add (fun w b => (w, b))
           numbered_batches 5 true (fun _ => Ok tt) no_epoch_args task_model
           0 tt); [cbn; lia | reflexivity].
Defined.

(** The task model wrapped in the order the code expects, and in the
    reverse order. *)
Lemma load_receives_model_attribute_witness :
  (resolve_trainable_module (TorchDDP (FP16_Module task_model)) = task_model
   /\ load_target (TorchDDP (FP16_Module task_model)) = Ok language_model
   /\ exists rest,
        fst (load_pretrained nat nat (fun _ => Ok tt) fp16_args
               (TorchDDP (FP16_Module task_model)))
        = LoadCheckpoint language_model :: rest)
  /\ (resolve_trainable_module (FP16_Module (TorchDDP task_model))
      = TorchDDP task_model
      /\ load_pretrained nat nat (fun _ => Ok tt) fp16_args
           (FP16_Module (TorchDDP task_model))
         = ([], Raise AttributeError)).
Proof.
  split.
  - destruct (load_receives_model_attribute nat nat (fun _ => Ok tt)
                fp16_args "pretrained" (TorchDDP (FP16_Module task_model))
                eq_refl) as (R & _ & _ & _ & L & _).
    split; [exact R|split; [reflexivity|exact (L language_model eq_refl)]].
  - destruct (load_receives_model_attribute nat nat (fun _ => Ok tt)
                fp16_args "pretrained" (FP16_Module (TorchDDP task_model))
                eq_refl) as (R & _ & _ & _ & _ & N).
    split; [exact R|]. apply N. intros name inner. rewrite R. discriminate.
Defined.

(** With [raw] wrapped twice, and with [raw] alone, the load collaborator is
    handed [raw.model], which is not [raw]. *)
Lemma load_target_is_not_the_resolved_module :
  load_target (TorchDDP (FP16_Module task_model)) = Ok language_model
  /\ load_target task_model = Ok language_model
  /\ language_model <> task_model.
Proof. repeat split. discriminate. Qed.


End FinetuneFacts.

(* ===================================================================== *)
(** * Properties: [range] and [enumerate] *)
(* ===================================================================== *)

Module PyFacts.

Lemma map_seq_from {B} (f : nat -> B) (start len : nat) :
  map f (seq start len) = map (fun i => f (start + i)%nat) (seq 0 len).
Proof.
  revert start. induction len as [|len IH]; intros start; [reflexivity|].
  cbn. rewrite Nat.add_0_r. f_equal.
  rewrite IH, <- seq_shift, map_map.
  apply map_ext. intros i. f_equal. lia.
Qed.

Lemma range_split (lo mid hi : Z) :
  lo <= mid <= hi -> range lo hi = range lo mid ++ range mid hi.
Proof.
  intros H. unfold range.
  replace (Z.to_nat (hi - lo))
    with (Z.to_nat (mid - lo) + Z.to_nat (hi - mid))%nat by lia.
  rewrite seq_app, map_app. f_equal.
  cbn [Nat.add]. rewrite map_seq_from.
  apply map_ext. intros i. lia.
Qed.

Lemma range_length (lo hi : Z) : length (range lo hi) = Z.to_nat (hi - lo).
Proof. unfold range. rewrite length_map, length_seq. reflexivity. Qed.

Lemma range_cons (lo hi : Z) :
  lo < hi -> range lo hi = lo :: range (lo + 1) hi.
Proof.
  intros H. rewrite (range_split lo (lo + 1) hi) by lia.
  assert (E : range lo (lo + 1) = [lo]).
  { unfold range. replace (lo + 1 - lo) with 1 by lia.
    change (Z.to_nat 1) with 1%nat. cbn [seq map Z.of_nat].
    rewrite Z.add_0_r. reflexivity. }
  rewrite E. reflexivity.
Qed.

Lemma map_snd_combine_seq {B} (l : list B) (start : nat) :
  map snd (combine (map Z.of_nat (seq start (length l))) l) = l.
Proof.
  revert start. induction l as [|x l IH]; intros start; [reflexivity|].
  cbn. f_equal. apply IH.
Qed.

Lemma map_snd_enumerate {B} (l : list B) : map snd (enumerate l) = l.
Proof. apply map_snd_combine_seq. Qed.

End PyFacts.

(* ===================================================================== *)
(** * Properties: the training loop *)
(* ===================================================================== *)

Module TrainFacts.

Import Interval IntervalFacts Train.

Section Facts.

Variables batch loss world : Type.
Variable loss_zero : loss.
Variable loss_add : loss -> loss -> loss.
Variable train_step : world -> batch -> world * loss.
Variable train_dataloader : Z -> list batch.
Variable end_of_epoch_callback : bool.

Abbreviation St := (state batch loss world).
Abbreviation Ev := (event batch loss).

Lemma interval_actions_app (t u : list Ev) :
  interval_actions (t ++ u) = interval_actions t ++ interval_actions u.
Proof. apply flat_map_app. Qed.

Lemma stepped_app (t u : list Ev) : stepped (t ++ u) = stepped t ++ stepped u.
Proof. apply flat_map_app. Qed.

Lemma drawn_app (t u : list Ev) : drawn (t ++ u) = drawn t ++ drawn u.
Proof. apply flat_map_app. Qed.

Lemma actions_stepped (n : Z) (acts : list Ev) :
  Forall (action_at n) acts -> stepped acts = [] /\ drawn acts = [].
Proof.
  induction 1 as [|e acts He _ [IH1 IH2]]; [split; reflexivity|].
  destruct e as [| | | | [|] | |]; cbn in He; try contradiction; cbn; auto.
Qed.

Lemma actions_iterations (n : Z) (acts : list Ev) :
  Forall (action_at n) acts -> Forall (eq n) (interval_actions acts).
Proof.
  induction 1 as [|e acts He _ IH]; [constructor|].
  destruct e as [| | | | [|] | |]; cbn in He; try contradiction; cbn;
    constructor; auto.
Qed.

Section WithArgs.

Variable a : Args.

Abbreviation after_step := (after_step batch loss world loss_zero a).
Abbreviation batch_body :=
  (batch_body batch loss world loss_zero loss_add train_step a).
Abbreviation epoch_body :=
  (epoch_body batch loss world loss_zero loss_add train_step
     train_dataloader end_of_epoch_callback a).
Abbreviation train_epochs :=
  (train_epochs batch loss world loss_zero loss_add train_step
     train_dataloader end_of_epoch_callback a).
Abbreviation train_prologue := (train_prologue batch loss world loss_zero a).
Abbreviation _train :=
  (_train batch loss world loss_zero loss_add train_step
     train_dataloader end_of_epoch_callback a).
Abbreviation for_each := (for_each batch loss world).
Abbreviation entry_state := (entry_state batch loss world loss_zero).
Abbreviation log_interval_usable := (log_interval_usable a).

(** [after_step] only appends actions of the current iteration; it leaves
    the counter and the skip offset alone, and it raises only through the
    unguarded test on the log interval. *)
Lemma after_step_spec (s : St) :
  exists acts,
    trace (fst (after_step s)) = trace s ++ acts
    /\ Forall (action_at (iteration s)) acts
    /\ iteration (fst (after_step s)) = iteration s
    /\ start_iteration (fst (after_step s)) = start_iteration s
    /\ (log_interval_usable -> snd (after_step s) = Ok tt).
Proof.
  unfold Train.after_step, bind, get, lift, when, emit, modify, ret.
  destruct (should_save_total a (iteration s)) as [cs Hs].
  destruct (should_eval_total a (iteration s)) as [ce He].
  destruct (should_log a (iteration s)) as [cl|e] eqn:Hl.
  - rewrite Hs, He.
    destruct cl;
      [destruct (log_divisor_ok a _ Hl) as (k & _ & _ & D); rewrite D|];
      destruct cs, ce; cbn; rewrite <- ?app_assoc; cbn;
      first [ eexists; (split; [reflexivity|]);
              (split; [repeat constructor|]); now auto
            | exists []; rewrite app_nil_r; now auto ].
  - exists []. cbn. rewrite app_nil_r. repeat split; auto.
    intros (k & Hk & Hk0). rewrite (should_log_total a _ k Hk Hk0) in Hl.
    discriminate.
Qed.

(** A batch before the starting value is drawn and nothing else happens. *)
Lemma batch_body_skipped (epoch i : Z) (b : batch) (s : St) :
  (i <? start_iteration s) = true ->
  batch_body epoch (i, b) s
  = (add_event batch loss world (DrawBatch epoch i b) s, Ok tt).
Proof.
  intros H. unfold Train.batch_body, bind, get, emit, modify, ret.
  cbn. rewrite H. reflexivity.
Qed.

(** Any other batch is trained on: the counter advances by one, the skip
    offset is cleared, and the actions taken bear the new counter. *)
Lemma batch_body_executed (epoch i : Z) (b : batch) (s : St) :
  (i <? start_iteration s) = false ->
  exists acts,
    trace (fst (batch_body epoch (i, b) s))
      = trace s ++ DrawBatch epoch i b :: TrainStep b :: acts
    /\ Forall (action_at (iteration s + 1)) acts
    /\ iteration (fst (batch_body epoch (i, b) s)) = iteration s + 1
    /\ start_iteration (fst (batch_body epoch (i, b) s)) = 0
    /\ (log_interval_usable -> snd (batch_body epoch (i, b) s) = Ok tt).
Proof.
  intros H.
  unfold Train.batch_body, run_train_step, bind, get, emit, modify, ret.
  cbn -[Train.after_step]. rewrite H. cbn -[Train.after_step].
  match goal with
  | |- context [after_step ?s1] =>
      destruct (after_step_spec s1) as (acts & T & F & I & SI & R);
      destruct (after_step s1) as [s2 r]
  end.
  cbn in *. exists acts.
  rewrite T, <- !app_assoc. cbn.
  repeat split; auto.
Qed.

Lemma batch_body_keeps_start (epoch : Z) (ib : Z * batch) (s : St) :
  action_free_start s -> action_free_start (fst (batch_body epoch ib s)).
Proof.
  intros [Hi Ha]. destruct ib as [i b].
  destruct (i <? start_iteration s) eqn:E.
  - rewrite (batch_body_skipped _ _ _ _ E). split; [exact Hi|].
    cbn [fst add_event trace]. rewrite interval_actions_app.
    cbn. rewrite app_nil_r. exact Ha.
  - destruct (batch_body_executed epoch i b s E) as (acts & T & F & I & _).
    split; [lia|]. rewrite T.
    change (DrawBatch epoch i b :: TrainStep b :: acts)
      with ([DrawBatch epoch i b; TrainStep b] ++ acts).
    rewrite !interval_actions_app. cbn.
    apply Forall_app. split; [exact Ha|].
    apply actions_iterations in F.
    eapply Forall_impl; [|exact F]. cbn. intros i' <-. lia.
Qed.

Lemma for_each_keeps {A} (I : St -> Prop) (body : A -> M batch loss world unit)
    (l : list A) :
  (forall x s, I s -> I (fst (body x s))) ->
  forall s, I s -> I (fst (for_each body l s)).
Proof.
  intros Hb. induction l as [|x l IH]; intros s Hs; [exact Hs|].
  cbn. unfold bind. specialize (Hb x s Hs).
  destruct (body x s) as [s1 [u|e]]; cbn in *; auto.
Qed.

Lemma add_event_keeps_start (e : Ev) (s : St) :
  interval_actions [e] = [] ->
  action_free_start s ->
  action_free_start (add_event batch loss world e s).
Proof.
  intros He [Hi Ha]. split; [exact Hi|].
  unfold action_free_start. cbn [add_event trace].
  rewrite interval_actions_app, He, app_nil_r.
  exact Ha.
Qed.

Lemma epoch_body_keeps_start (epoch : Z) (s : St) :
  action_free_start s -> action_free_start (fst (epoch_body epoch s)).
Proof.
  intros Hs. unfold Train.epoch_body, bind, when, get, emit, modify, ret.
  pose proof (add_event_keeps_start (SetEpoch (seed a + epoch)) s eq_refl Hs)
    as K1.
  pose proof (for_each_keeps action_free_start (batch_body epoch)
                (enumerate (train_dataloader (seed a + epoch)))
                (batch_body_keeps_start epoch) _ K1) as K.
  destruct (for_each _ _ _) as [s2 [u|e]]; cbn [fst] in K |- *; [|exact K].
  destruct (truthy_str (save a)), end_of_epoch_callback; cbn [fst];
    repeat (apply add_event_keeps_start; [reflexivity|]); exact K.
Qed.

(** The loop starts from a counter of zero, whatever it held before, and
    takes its interval decisions after the counter has been advanced: no
    logging, interval checkpoint or evaluation bears iteration zero. *)
Lemma train_actions_positive (iteration0 : Z) (w : world) :
  Forall (fun i => 1 <= i)
    (interval_actions (trace (fst (_train (entry_state iteration0 w))))).
Proof.
  unfold Train._train, Train.train_prologue.
  unfold bind, get, lift, modify, ret. cbn.
  destruct (resume_position 0 (train_iters_per_epoch a)) as [p|e]; cbn;
    [|constructor].
  unfold Train.train_epochs.
  apply (for_each_keeps action_free_start epoch_body
           (range (fst p) (epochs a)) epoch_body_keeps_start).
  split; cbn; [lia|constructor].
Qed.

(** ** Runs that complete *)

Lemma for_each_app {A} (body : A -> M batch loss world unit)
    (l1 l2 : list A) (s s1 : St) :
  for_each body l1 s = (s1, Ok tt) ->
  for_each body (l1 ++ l2) s = for_each body l2 s1.
Proof.
  revert s. induction l1 as [|x l1 IH]; intros s H.
  - cbn in H. injection H as ->. reflexivity.
  - cbn in H |- *. unfold bind in H |- *.
    destruct (body x s) as [s' [u|e]]; [|discriminate].
    apply IH. exact H.
Qed.

(** The inner loop over the batches numbered from [j] on: those numbered
    below the skip offset are drawn only, the others are trained on, and the
    offset is cleared by the first batch trained on. *)
Lemma inner_loop_spec (epoch : Z) (l : list batch) :
  log_interval_usable ->
  forall (j : nat) (s : St),
    0 <= start_iteration s ->
    let bs := combine (map Z.of_nat (seq j (length l))) l in
    let skip := (Z.to_nat (start_iteration s) - j)%nat in
    exists s',
      for_each (batch_body epoch) bs s = (s', Ok tt)
      /\ stepped (trace s') = stepped (trace s) ++ skipn skip l
      /\ drawn (trace s') = drawn (trace s) ++ labelled epoch bs
      /\ iteration s' = iteration s + Z.of_nat (length (skipn skip l))
      /\ start_iteration s'
         = (if (skip <? length l)%nat then 0 else start_iteration s).
Proof.
  intros Hlog. induction l as [|x l IH]; intros j s Hsi bs skip.
  - exists s. subst bs skip. cbn. rewrite skipn_nil, !app_nil_r. cbn.
    repeat split; auto. lia.
  - subst bs. cbn [length seq map combine Train.for_each]. unfold bind.
    destruct (Z.of_nat j <? start_iteration s) eqn:E.
    + rewrite (batch_body_skipped epoch _ x s E).
      set (s1 := add_event batch loss world (DrawBatch epoch (Z.of_nat j) x) s).
      destruct (IH (S j) s1 Hsi) as (s' & R & St' & Dr & It & Si).
      exists s'. cbn [start_iteration add_event s1 trace iteration] in *.
      apply Z.ltb_lt in E.
      assert (Hskip : skip = S (Z.to_nat (start_iteration s) - S j)) by (subst skip; lia).
      rewrite Hskip. cbn [skipn].
      rewrite stepped_app, drawn_app in *. cbn in St', Dr |- *.
      rewrite app_nil_r in St'. rewrite <- app_assoc in Dr.
      repeat split; auto.
    + destruct (batch_body_executed epoch (Z.of_nat j) x s E)
        as (acts & T & F & I & SI & R).
      specialize (R Hlog).
      destruct (batch_body epoch (Z.of_nat j, x) s) as [s1 r].
      cbn [fst snd] in *. subst r.
      assert (H0 : 0 <= start_iteration s1) by lia.
      destruct (IH (S j) s1 H0) as (s' & R' & St' & Dr & It & Si).
      exists s'.
      apply Z.ltb_ge in E.
      assert (Hskip : skip = 0%nat) by (subst skip; lia).
      rewrite SI in *. cbn [Z.to_nat Nat.sub] in *.
      rewrite Hskip. cbn [skipn] in *.
      destruct (actions_stepped _ _ F) as [A1 A2].
      rewrite T in St', Dr.
      change (DrawBatch epoch (Z.of_nat j) x :: TrainStep x :: acts)
        with ([DrawBatch epoch (Z.of_nat j) x; TrainStep x] ++ acts) in St', Dr.
      rewrite !stepped_app, A1 in St'. rewrite !drawn_app, A2 in Dr.
      cbn in St', Dr |- *. rewrite <- app_assoc in St', Dr. cbn in St', Dr.
      repeat split; auto.
      * cbn in It. lia.
      * destruct (0 <? length l)%nat; auto.
Qed.

(** One epoch, outer loop body included. *)
Lemma epoch_body_spec (epoch : Z) (s : St) :
  log_interval_usable ->
  0 <= start_iteration s ->
  let l := train_dataloader (seed a + epoch) in
  let skip := Z.to_nat (start_iteration s) in
  exists s',
    epoch_body epoch s = (s', Ok tt)
    /\ stepped (trace s') = stepped (trace s) ++ skipn skip l
    /\ drawn (trace s') = drawn (trace s) ++ labelled epoch (enumerate l)
    /\ iteration s' = iteration s + Z.of_nat (length (skipn skip l))
    /\ start_iteration s'
       = (if (skip <? length l)%nat then 0 else start_iteration s).
Proof.
  intros Hlog Hsi l skip.
  unfold Train.epoch_body, bind, when, get, emit, modify, ret.
  set (s1 := add_event batch loss world (SetEpoch (seed a + epoch)) s).
  destruct (inner_loop_spec epoch l Hlog 0 s1 Hsi)
    as (s2 & R & St' & Dr & It & Si).
  fold l. unfold enumerate. rewrite R.
  cbn [start_iteration add_event s1 trace iteration] in *.
  rewrite Nat.sub_0_r in *. fold skip in St', It, Si.
  rewrite stepped_app, drawn_app in *. cbn in St', Dr.
  rewrite app_nil_r in St', Dr.
  destruct (truthy_str (save a)), end_of_epoch_callback;
    eexists; (split; [reflexivity|]);
    cbn [start_iteration add_event trace iteration];
    rewrite ?stepped_app, ?drawn_app; cbn; rewrite ?app_nil_r;
    repeat split; auto.
Qed.

(** A sequence of epochs entered with no batch to skip. *)
Lemma epochs_spec (n : nat) :
  log_interval_usable ->
  (forall sampler_epoch, length (train_dataloader sampler_epoch) = n) ->
  forall (eps : list Z) (s : St),
    start_iteration s = 0 ->
    exists s',
      for_each epoch_body eps s = (s', Ok tt)
      /\ stepped (trace s')
         = stepped (trace s)
           ++ flat_map (fun ep => train_dataloader (seed a + ep)) eps
      /\ drawn (trace s')
         = drawn (trace s)
           ++ flat_map (fun ep =>
                labelled ep (enumerate (train_dataloader (seed a + ep)))) eps
      /\ iteration s' = iteration s + Z.of_nat (length eps) * Z.of_nat n
      /\ start_iteration s' = 0.
Proof.
  intros Hlog Hlen. induction eps as [|ep eps IH]; intros s Hsi.
  - exists s. cbn. rewrite !app_nil_r. repeat split; auto. lia.
  - destruct (epoch_body_spec ep s Hlog ltac:(lia))
      as (s1 & R & St' & Dr & It & Si).
    rewrite Hsi in *. cbn [Z.to_nat skipn] in *.
    assert (Hsi1 : start_iteration s1 = 0)
      by (rewrite Si; destruct (0 <? _)%nat; reflexivity).
    destruct (IH s1 Hsi1) as (s' & R' & St'' & Dr' & It' & Si').
    exists s'. cbn [Train.for_each flat_map]. unfold bind. rewrite R.
    rewrite St'', St', Dr', Dr, It', It, Hlen, <- !app_assoc.
    repeat split; auto.
    cbn [length]. lia.
Qed.

(** ** The claims about the loop *)

Lemma train_prologue_resets (iteration0 : Z) (w : world) :
  train_iters_per_epoch a <> 0 ->
  train_prologue (entry_state iteration0 w)
  = (mkState 0 loss_zero 0 w [], Ok 0).
Proof.
  intros H. unfold Train.train_prologue, bind, get, lift, modify, ret.
  cbn. unfold resume_position, floordiv, mod_.
  destruct (Z.eqb_spec (train_iters_per_epoch a) 0); [contradiction|].
  reflexivity.
Qed.

Lemma train_unfold (iteration0 : Z) (w : world) :
  train_iters_per_epoch a <> 0 ->
  _train (entry_state iteration0 w)
  = for_each epoch_body (range 0 (epochs a)) (mkState 0 loss_zero 0 w []).
Proof.
  intros H. unfold Train._train, bind.
  rewrite (train_prologue_resets iteration0 w H). reflexivity.
Qed.

(** C9: started from iteration 0 (as the loop always is), and with every
    pass over the training loader delivering [train_iters_per_epoch]
    batches, the run reaches the end of every epoch [e] it is configured
    for, and there the counter equals [(e + 1) * train_iters_per_epoch]; the
    rest of the run continues from that state. *)
Theorem counter_at_epoch_boundary (e iteration0 : Z) (w : world) :
  log_interval_usable ->
  0 < train_iters_per_epoch a ->
  (forall sampler_epoch,
     Z.of_nat (length (train_dataloader sampler_epoch))
     = train_iters_per_epoch a) ->
  0 <= e < epochs a ->
  exists s0 s_e,
    train_prologue (entry_state iteration0 w) = (s0, Ok 0)
    /\ iteration s0 = 0
    /\ for_each epoch_body (range 0 (e + 1)) s0 = (s_e, Ok tt)
    /\ iteration s_e = (e + 1) * train_iters_per_epoch a
    /\ _train (entry_state iteration0 w)
       = for_each epoch_body (range (e + 1) (epochs a)) s_e.
Proof.
  intros Hlog Hpos Hlen He.
  assert (Hnz : train_iters_per_epoch a <> 0) by lia.
  assert (Hlen' : forall sampler_epoch,
             length (train_dataloader sampler_epoch)
             = Z.to_nat (train_iters_per_epoch a))
    by (intros se; specialize (Hlen se); lia).
  destruct (epochs_spec _ Hlog Hlen' (range 0 (e + 1))
              (mkState 0 loss_zero 0 w []) eq_refl)
    as (s_e & R & _ & _ & It & _).
  exists (mkState 0 loss_zero 0 w []), s_e.
  split; [apply train_prologue_resets; exact Hnz|].
  split; [reflexivity|]. split; [exact R|]. split.
  - rewrite It, PyFacts.range_length. cbn [iteration]. lia.
  - rewrite (train_unfold iteration0 w Hnz).
    rewrite (PyFacts.range_split 0 (e + 1) (epochs a)) by lia.
    apply for_each_app. exact R.
Qed.

(** C2 (as the code has it): the floor division and the modulus give epoch
    1 and offset 2 for iteration 7 with 5 iterations per epoch, but the loop
    sets the counter to zero before it derives them, so that whatever
    iteration was recorded it starts at epoch 0 with offset 0 and trains on
    every batch it draws.  The skip mechanism itself, entered at epoch 1
    with offset 2, draws all five batches of epoch 1, trains on the last
    three only, beginning with the third, clears the offset, and trains on
    every batch of the epochs that follow. *)
Theorem resume_is_reset_before_use (iteration0 : Z) (w : world) (s : St) :
  log_interval_usable ->
  train_iters_per_epoch a = 5 ->
  (forall sampler_epoch, length (train_dataloader sampler_epoch) = 5%nat) ->
  2 <= epochs a ->
  resume_position 7 (train_iters_per_epoch a) = Ok (1, 2)
  /\ (exists s0,
        train_prologue (entry_state iteration0 w) = (s0, Ok 0)
        /\ iteration s0 = 0 /\ start_iteration s0 = 0)
  /\ (exists s',
        _train (entry_state iteration0 w) = (s', Ok tt)
        /\ stepped (trace s')
           = flat_map (fun ep => train_dataloader (seed a + ep))
               (range 0 (epochs a))
        /\ map snd (drawn (trace s')) = stepped (trace s'))
  /\ (start_iteration s = 2 ->
      exists s',
        train_epochs 1 s = (s', Ok tt)
        /\ stepped (trace s')
           = stepped (trace s)
             ++ skipn 2 (train_dataloader (seed a + 1))
             ++ flat_map (fun ep => train_dataloader (seed a + ep))
                  (range 2 (epochs a))
        /\ drawn (trace s')
           = drawn (trace s)
             ++ labelled 1 (enumerate (train_dataloader (seed a + 1)))
             ++ flat_map (fun ep =>
                  labelled ep (enumerate (train_dataloader (seed a + ep))))
                  (range 2 (epochs a))
        /\ start_iteration s' = 0).
Proof.
  intros Hlog Hipe Hlen He.
  assert (Hnz : train_iters_per_epoch a <> 0) by lia.
  split; [rewrite Hipe; reflexivity|]. split; [|split].
  - eexists. split; [apply train_prologue_resets; exact Hnz|].
    split; reflexivity.
  - destruct (epochs_spec _ Hlog Hlen (range 0 (epochs a))
                (mkState 0 loss_zero 0 w []) eq_refl)
      as (s' & R & St' & Dr & _ & _).
    exists s'. rewrite (train_unfold iteration0 w Hnz).
    split; [exact R|]. cbn [trace stepped drawn flat_map app] in St', Dr.
    split; [exact St'|]. rewrite St', Dr.
    clear. induction (range 0 (epochs a)) as [|ep eps IH]; [reflexivity|].
    cbn [flat_map]. rewrite map_app, IH. f_equal.
    unfold labelled. rewrite map_map. cbn [snd].
    apply PyFacts.map_snd_enumerate.
  - intros Hsi. unfold Train.train_epochs.
    rewrite (PyFacts.range_cons 1 (epochs a)) by lia.
    cbn [Train.for_each]. unfold bind. change (1 + 1) with 2.
    destruct (epoch_body_spec 1 s Hlog ltac:(lia))
      as (s1 & R & St' & Dr & _ & Si).
    rewrite Hsi, Hlen in Si. cbn in Si.
    rewrite Hsi in St'. change (Z.to_nat 2) with 2%nat in St'.
    destruct (epochs_spec _ Hlog Hlen (range 2 (epochs a)) s1 Si)
      as (s' & R' & St'' & Dr' & _ & Si').
    exists s'. rewrite R, R', St'', St', Dr', Dr, <- !app_assoc.
    repeat split; auto.
Qed.

(** C3 (as the code has it): the three tests depend on the counter and the
    configuration only.  Logging fires iff the counter is a multiple of the
    log interval, which must hold a non-zero integer (no test guards it: with
    [None] the comparison raises).  The interval checkpoint fires iff a
    checkpoint directory is configured, the save interval is set and
    non-zero, and the counter is a multiple of it; evaluation fires iff the
    evaluation interval is set and non-zero and the counter is a multiple of
    it; these two never raise and an absent interval gives [False].  The
    loop takes the decisions after advancing a counter it started from zero:
    no action it takes bears iteration 0. *)
Theorem interval_decisions (it iteration0 : Z) (w : world) :
  (should_log a it = Ok true <->
     exists k, log_interval a = Some k /\ k <> 0 /\ it mod k = 0)
  /\ (should_save a it = Ok true <->
       truthy_str (save a) = true /\
       exists k, save_interval a = Some k /\ k <> 0 /\ it mod k = 0)
  /\ (should_eval a it = Ok true <->
       exists k, eval_interval a = Some k /\ k <> 0 /\ it mod k = 0)
  /\ (exists b, should_save a it = Ok b)
  /\ (exists b, should_eval a it = Ok b)
  /\ (log_interval a = None -> should_log a it = Raise TypeError)
  /\ (save_interval a = None -> should_save a it = Ok false)
  /\ (eval_interval a = None -> should_eval a it = Ok false)
  /\ Forall (fun i => 1 <= i)
       (interval_actions (trace (fst (_train (entry_state iteration0 w))))).
Proof.
  split; [apply should_log_true|]. split; [apply should_save_true|].
  split; [apply should_eval_true|]. split; [apply should_save_total|].
  split; [apply should_eval_total|]. split; [|split; [|split]].
  - intros H. unfold should_log. rewrite H. reflexivity.
  - intros H. unfold should_save. rewrite H.
    destruct (truthy_str (save a)); reflexivity.
  - intros H. unfold should_eval. rewrite H. reflexivity.
  - apply train_actions_positive.
Qed.

End WithArgs.

(** Unrolls a run of two epochs whose loader delivers five batches. *)
Ltac run_two_epochs Hlen sd :=
  unfold _train, train_epochs, train_prologue;
  cbn -[Z.add epoch_body];
  unfold epoch_body;
  cbn [seed Examples.end_to_end_args Examples.no_save_interval_args];
  change (range 0 2) with [0; 1]; cbn beta iota delta [for_each];
  pose proof (Hlen (sd + 0)) as H0; pose proof (Hlen (sd + 1)) as H1;
  destruct (train_dataloader (sd + 0)) as [|? [|? [|? [|? [|? [|]]]]]];
    try discriminate;
  destruct (train_dataloader (sd + 1)) as [|? [|? [|? [|? [|? [|]]]]]];
    try discriminate;
  destruct end_of_epoch_callback; vm_compute; repeat split.

(** C1: with two epochs of five iterations, a log interval of 2, a save
    interval of 5, an evaluation interval of 10 and a checkpoint directory
    set, the run completes after ten training steps; metrics are reported at
    iterations 2, 4, 6, 8 and 10, the interval checkpoint is written at 5 and
    10, one more checkpoint is written at the end of each of the two epochs
    (when the counter is 5 and 10, after the interval checkpoint of the same
    iteration), and the evaluation runs at iteration 10 only.  The two
    checkpoints at the ends of the epochs are written just the same when no
    save interval is configured. *)
Theorem end_to_end_schedule
    (sd : Z) (ld : option string) (fp : bool) (iteration0 : Z) (w : world) :
  (forall sampler_epoch, length (train_dataloader sampler_epoch) = 5%nat) ->
  let run :=
    _train batch loss world loss_zero loss_add train_step train_dataloader
      end_of_epoch_callback (Examples.end_to_end_args sd ld fp)
      (entry_state batch loss world loss_zero iteration0 w) in
  let t := trace (fst run) in
  let run' :=
    _train batch loss world loss_zero loss_add train_step train_dataloader
      end_of_epoch_callback (Examples.no_save_interval_args sd ld fp)
      (entry_state batch loss world loss_zero iteration0 w) in
  (snd run = Ok tt
   /\ length (stepped t) = 10%nat
   /\ iteration (fst run) = 10
   /\ reported t = [2; 4; 6; 8; 10]
   /\ saved AtInterval t = [5; 10]
   /\ saved AtEpochEnd t = [5; 10]
   /\ checkpoints t
      = [(AtInterval, 5); (AtEpochEnd, 5); (AtInterval, 10); (AtEpochEnd, 10)]
   /\ evaluated t = [10])
  /\ checkpoints (trace (fst run')) = [(AtEpochEnd, 5); (AtEpochEnd, 10)].
Proof.
  intros Hlen run t run'. subst t run run'. split.
  - run_two_epochs Hlen sd.
  - run_two_epochs Hlen sd.
Qed.

End Facts.

(** Ten numbered batches, iteration 7 left in [args.iteration]. *)
Lemma end_to_end_schedule_witness :
  let run :=
    _train Z Z unit 0 Z.add (fun w b => (w, b)) Examples.numbered_batches
      true (Examples.end_to_end_args 0 None false)
      (entry_state Z Z unit 0 7 tt) in
  let t := trace (fst run) in
  snd run = Ok tt
  /\ length (stepped t) = 10%nat
  /\ iteration (fst run) = 10
  /\ reported t = [2; 4; 6; 8; 10]
  /\ saved AtInterval t = [5; 10]
  /\ saved AtEpochEnd t = [5; 10]
  /\ checkpoints t
     = [(AtInterval, 5); (AtEpochEnd, 5); (AtInterval, 10); (AtEpochEnd, 10)]
  /\ evaluated t = [10].
Proof.
  apply (end_to_end_schedule Z Z unit 0 Z.add (fun w b => (w, b))
           Examples.numbered_batches true 0 None false 7 tt).
  intros sampler_epoch. reflexivity.
Defined.

Lemma counter_at_epoch_boundary_witness :
  exists s0 s_e,
    train_prologue Z Z unit 0 (Examples.end_to_end_args 0 None false)
      (entry_state Z Z unit 0 7 tt) = (s0, Ok 0)
    /\ iteration s0 = 0
    /\ for_each Z Z unit
         (epoch_body Z Z unit 0 Z.add (fun w b => (w, b))
            Examples.numbered_batches true
            (Examples.end_to_end_args 0 None false))
         (range 0 (1 + 1)) s0 = (s_e, Ok tt)
    /\ iteration s_e = (1 + 1) * 5
    /\ _train Z Z unit 0 Z.add (fun w b => (w, b)) Examples.numbered_batches
         true (Examples.end_to_end_args 0 None false)
         (entry_state Z Z unit 0 7 tt)
       = for_each Z Z unit
           (epoch_body Z Z unit 0 Z.add (fun w b => (w, b))
              Examples.numbered_batches true
              (Examples.end_to_end_args 0 None false))
           (range (1 + 1) 2) s_e.
Proof.
  apply (counter_at_epoch_boundary Z Z unit 0 Z.add (fun w b => (w, b))
           Examples.numbered_batches true
           (Examples.end_to_end_args 0 None false) 1 7 tt).
  - exists 2. split; [reflexivity|lia].
  - cbn. lia.
  - intros sampler_epoch. reflexivity.
  - cbn. lia.
Defined.

(** Entered with 7 in [args.iteration] and five batches per epoch, the loop
    derives epoch 0 and offset 0, not epoch 1 and offset 2, and trains on all
    ten batches, the first of epoch 0 first. *)
Lemma train_restarts_from_zero :
  let a := Examples.end_to_end_args 0 None false in
  let entry := entry_state Z Z unit 0 7 tt in
  let run :=
    _train Z Z unit 0 Z.add (fun w b => (w, b)) Examples.numbered_batches
      true a entry in
  snd (train_prologue Z Z unit 0 a entry) = Ok 0
  /\ start_iteration (fst (train_prologue Z Z unit 0 a entry)) = 0
  /\ epochs_set (trace (fst run)) = [0; 1]
  /\ stepped (trace (fst run)) = [0; 1; 2; 3; 4; 10; 11; 12; 13; 14]
  /\ stepped (trace (fst run)) <> [12; 13; 14].
Proof. vm_compute. repeat split. discriminate. Qed.

Lemma resume_is_reset_before_use_witness :
  let a := Examples.end_to_end_args 0 None false in
  let resumed : state Z Z unit := mkState 7 0 2 tt [] in
  resume_position 7 (train_iters_per_epoch a) = Ok (1, 2)
  /\ (exists s',
        train_epochs Z Z unit 0 Z.add (fun w b => (w, b))
          Examples.numbered_batches true a 1 resumed = (s', Ok tt)
        /\ stepped (trace s') = [12; 13; 14]
        /\ map snd (drawn (trace s')) = [10; 11; 12; 13; 14]).
Proof.
  intros a resumed.
  destruct (resume_is_reset_before_use Z Z unit 0 Z.add (fun w b => (w, b))
              Examples.numbered_batches true a 7 tt resumed)
    as (H1 & _ & _ & H4).
  - exists 2. split; [reflexivity|lia].
  - reflexivity.
  - intros sampler_epoch. reflexivity.
  - cbn. lia.
  - split; [exact H1|].
    destruct (H4 eq_refl) as (s' & R & St' & Dr & _).
    exists s'. split; [exact R|]. rewrite St', Dr. split; reflexivity.
Defined.

(** Three places where the code departs from "an action fires iff its
    interval is set and divides the counter, and never at zero": at zero the
    tests hold; without a checkpoint directory the interval checkpoint does
    not fire although its interval divides the counter; without a log
    interval the logging test raises instead of failing. *)
Lemma interval_tests_differ :
  decide (Examples.end_to_end_args 0 None false) 0
    = mkDecision (Ok true) (Ok true) (Ok true)
  /\ (should_save Examples.no_save_args 5 = Ok false
      /\ spec_trigger (save_interval Examples.no_save_args) 5 = true)
  /\ (should_log Examples.no_log_args 4 = Raise TypeError
      /\ spec_trigger (log_interval Examples.no_log_args) 4 = false).
Proof. repeat split. Qed.

(** Without a log interval the logging test raises; without a checkpoint
    directory the checkpoint test fails whatever the interval. *)
Lemma interval_decisions_witness :
  should_log Examples.no_log_args 4 = Raise TypeError
  /\ should_save Examples.no_save_args 5 <> Ok true
  /\ Forall (fun i => 1 <= i)
       (interval_actions
          (trace (fst (_train Z Z unit 0 Z.add (fun w b => (w, b))
                         Examples.numbered_batches true
                         (Examples.end_to_end_args 0 None false)
                         (entry_state Z Z unit 0 7 tt))))).
Proof.
  split; [|split].
  - destruct (interval_decisions Z Z unit 0 Z.add (fun w b => (w, b))
                Examples.numbered_batches true Examples.no_log_args 4 7 tt)
      as (_ & _ & _ & _ & _ & H & _).
    exact (H eq_refl).
  - destruct (interval_decisions Z Z unit 0 Z.add (fun w b => (w, b))
                Examples.numbered_batches true Examples.no_save_args 5 7 tt)
      as (_ & H & _).
    intros E. apply H in E as [E _]. discriminate.
  - destruct (interval_decisions Z Z unit 0 Z.add (fun w b => (w, b))
                Examples.numbered_batches true
                (Examples.end_to_end_args 0 None false) 0 7 tt)
      as (_ & _ & _ & _ & _ & _ & _ & _ & H).
    exact H.
Defined.

End TrainFacts.

(* ===================================================================== *)
(** * Properties: the resume position *)
(* ===================================================================== *)

Module ResumeFacts.

Import Interval Train TrainFacts.

Section Facts.

Variables batch loss world : Type.
Variable loss_zero : loss.
Variable a : Args.

Let train_prologue := train_prologue batch loss world loss_zero a.
Let entry_state := entry_state batch loss world loss_zero.

(** C8 (as the code has it): applied to a value [global_iteration >= 0]
    with [iters_per_epoch > 0], the expressions of lines 139-140 give the
    floor quotient and the remainder, the only pair with
    [start_epoch * iters_per_epoch + start_iteration = global_iteration]
    and [0 <= start_iteration < iters_per_epoch].  The loop applies them to
    the counter after it has set it to zero: entered with
    [global_iteration] in [args.iteration], it derives epoch 0 and offset
    0, which recompose to the counter as it then is (zero) and to the value
    it was entered with only if that was zero. *)
Theorem resume_position_recomposes (global_iteration iters_per_epoch : Z) :
  0 <= global_iteration ->
  0 < iters_per_epoch ->
  resume_position global_iteration iters_per_epoch
    = Ok (global_iteration / iters_per_epoch,
          global_iteration mod iters_per_epoch)
  /\ (forall start_epoch start_iteration,
        resume_position global_iteration iters_per_epoch
          = Ok (start_epoch, start_iteration) <->
        start_epoch * iters_per_epoch + start_iteration = global_iteration
        /\ 0 <= start_iteration < iters_per_epoch)
  /\ 0 <= global_iteration / iters_per_epoch
  /\ (train_iters_per_epoch a = iters_per_epoch ->
      forall w,
      exists s0 start_epoch,
        train_prologue (entry_state global_iteration w) = (s0, Ok start_epoch)
        /\ s0 = mkState 0 loss_zero 0 w []
        /\ start_epoch = 0
        /\ resume_position (iteration s0) iters_per_epoch
           = Ok (start_epoch, start_iteration s0)
        /\ start_epoch * iters_per_epoch + start_iteration s0 = iteration s0
        /\ (start_epoch * iters_per_epoch + start_iteration s0
            = global_iteration <-> global_iteration = 0)).
Proof.
  intros Hg Hpos.
  assert (E : resume_position global_iteration iters_per_epoch
              = Ok (global_iteration / iters_per_epoch,
                    global_iteration mod iters_per_epoch)).
  { unfold resume_position, floordiv, mod_.
    destruct (Z.eqb_spec iters_per_epoch 0) as [E|_]; [lia|]. reflexivity. }
  pose proof (Z.div_mod global_iteration iters_per_epoch ltac:(lia)) as DM.
  pose proof (Z.mod_pos_bound global_iteration iters_per_epoch Hpos) as MB.
  split; [exact E|]. split; [|split].
  - intros start_epoch start_iteration. rewrite E. split.
    + intros [= <- <-]. split; [lia|exact MB].
    + intros [Hrec Hb].
      assert (Q : start_epoch = global_iteration / iters_per_epoch).
      { apply (Z.div_unique_pos global_iteration iters_per_epoch start_epoch
                 start_iteration); lia. }
      assert (R : start_iteration = global_iteration mod iters_per_epoch).
      { apply (Z.mod_unique_pos global_iteration iters_per_epoch start_epoch
                 start_iteration); lia. }
      rewrite Q, R. reflexivity.
  - apply Z.div_pos; lia.
  - intros Hipe w.
    exists (mkState 0 loss_zero 0 w []), 0.
    split.
    { apply (train_prologue_resets batch loss world loss_zero a).
      rewrite Hipe. lia. }
    split; [reflexivity|]. split; [reflexivity|].
    cbn [iteration start_iteration].
    split.
    { unfold resume_position, floordiv, mod_.
      destruct (Z.eqb_spec iters_per_epoch 0) as [E0|_]; [lia|].
      cbn [rbind]. rewrite Z.div_0_l, Z.mod_0_l by lia. reflexivity. }
    split; [lia|]. lia.
Qed.

End Facts.

Lemma resume_position_recomposes_witness :
  resume_position 7 5 = Ok (1, 2)
  /\ exists s0,
       Train.train_prologue Z Z unit 0 (Examples.end_to_end_args 0 None false)
         (Train.entry_state Z Z unit 0 7 tt) = (s0, Ok 0)
       /\ start_iteration s0 = 0.
Proof.
  destruct (resume_position_recomposes Z Z unit 0
              (Examples.end_to_end_args 0 None false) 7 5)
    as (E & _ & _ & L); [lia|lia|].
  split; [exact E|].
  destruct (L eq_refl tt) as (s0 & start_epoch & P & S0 & SE & _).
  exists s0. rewrite SE in P. split; [exact P|].
  rewrite S0. reflexivity.
Defined.

(** Entered with 7 in [args.iteration] and five iterations per epoch, the
    loop computes epoch 0 and offset 0, which do not recompose to 7. *)
Lemma prologue_position_does_not_recompose :
  let a := Examples.end_to_end_args 0 None false in
  let out := Train.train_prologue Z Z unit 0 a (Train.entry_state Z Z unit 0 7 tt) in
  train_iters_per_epoch a = 5
  /\ snd out = Ok 0
  /\ start_iteration (fst out) = 0
  /\ 0 * train_iters_per_epoch a + start_iteration (fst out) <> 7.
Proof. vm_compute. repeat split. discriminate. Qed.

End ResumeFacts.

(* ===================================================================== *)
(** * Properties: the sharded data loader *)
(* ===================================================================== *)

Module LoaderFacts.

Import Loader Examples.

Local Open Scope nat_scope.

(** ** Arithmetic of the shard sizes *)

Lemma ceil_div_shard (num W rank : nat) :
  rank < W -> ceil_div (num * W - rank) W = num.
Proof.
  intros H. unfold ceil_div. symmetry.
  destruct num as [|num].
  - apply Nat.div_unique with (r := W - 1); lia.
  - apply Nat.div_unique with (r := W - 1 - rank); [lia|].
    cbn [Nat.mul]. nia.
Qed.

Lemma total_size_ge (n W : nat) : 0 < W -> n <= total_size n W.
Proof.
  intros H. unfold total_size, num_samples, ceil_div.
  pose proof (Nat.div_mod_eq (n + W - 1) W) as E.
  pose proof (Nat.mod_upper_bound (n + W - 1) W ltac:(lia)) as B.
  nia.
Qed.

Lemma total_size_exact (n W : nat) :
  0 < W -> n mod W = 0 -> total_size n W = n.
Proof.
  intros H Hm. unfold total_size, num_samples, ceil_div.
  apply Nat.Div0.div_exact in Hm.
  assert (E : (n + W - 1) / W = n / W).
  { symmetry. apply Nat.div_unique with (r := W - 1); lia. }
  rewrite E. lia.
Qed.

Lemma total_size_zero (W : nat) : 0 < W -> total_size 0 W = 0.
Proof. intros H. apply total_size_exact; [exact H|]. apply Nat.Div0.mod_0_l. Qed.

(** ** Padding *)

Lemma concat_repeat_length {A} (l : list A) (k : nat) :
  length (concat (repeat l k)) = k * length l.
Proof.
  induction k as [|k IH]; [reflexivity|].
  cbn. rewrite length_app, IH. reflexivity.
Qed.

Lemma pad_length (indices : list nat) (total : nat) :
  length indices <= total ->
  (length indices = 0 -> total = 0) ->
  length (pad indices total) = total.
Proof.
  intros Hle Hz. unfold pad.
  destruct (Nat.leb_spec (total - length indices) (length indices)) as [H|H].
  - rewrite length_app, length_firstn. lia.
  - rewrite length_app, length_firstn, concat_repeat_length.
    assert (Hn : length indices <> 0) by lia.
    unfold ceil_div.
    pose proof (Nat.div_mod_eq (total - length indices + length indices - 1)
                  (length indices)) as E.
    pose proof (Nat.mod_upper_bound
                  (total - length indices + length indices - 1)
                  (length indices) Hn) as B.
    nia.
Qed.

Lemma pad_exact (indices : list nat) :
  pad indices (length indices) = indices.
Proof.
  unfold pad. rewrite Nat.sub_diag. cbn. apply app_nil_r.
Qed.

Lemma pad_keeps (indices : list nat) (total : nat) (x : nat) :
  In x indices -> In x (pad indices total).
Proof.
  intros H. unfold pad.
  destruct (total - length indices <=? length indices);
    apply in_or_app; left; exact H.
Qed.

(** ** Strided slices of a list whose length is a multiple of the stride *)

Lemma range_step_shard (num W rank : nat) :
  rank < W ->
  range_step rank (num * W) W = map (fun j => rank + j * W) (seq 0 num).
Proof.
  intros H. unfold range_step. rewrite (ceil_div_shard num W rank H).
  reflexivity.
Qed.

Lemma flat_map_length_const {A B} (f : A -> list B) (k : nat) (l : list A) :
  (forall x, In x l -> length (f x) = k) ->
  length (flat_map f l) = k * length l.
Proof.
  induction l as [|x l IH]; intros H; [cbn; lia|].
  cbn [flat_map length]. rewrite length_app.
  rewrite (H x) by (left; reflexivity).
  rewrite IH by (intros y Hy; apply H; right; exact Hy).
  lia.
Qed.

Lemma flat_map_flat_map {A B C} (f : B -> list C) (g : A -> list B)
    (l : list A) :
  flat_map f (flat_map g l) = flat_map (fun x => flat_map f (g x)) l.
Proof.
  induction l as [|x l IH]; [reflexivity|].
  cbn. rewrite flat_map_app, IH. reflexivity.
Qed.

(** The positions visited by all ranks together are all the positions. *)
Lemma positions_permutation (num W : nat) :
  0 < W ->
  Permutation (seq 0 (num * W))
    (flat_map (fun rank => range_step rank (num * W) W) (seq 0 W)).
Proof.
  intros HW. apply NoDup_Permutation_bis.
  - apply seq_NoDup.
  - rewrite (flat_map_length_const _ num).
    + rewrite !length_seq. lia.
    + intros rank Hr. apply in_seq in Hr.
      rewrite range_step_shard by lia.
      rewrite length_map, length_seq. reflexivity.
  - intros p Hp. apply in_seq in Hp.
    apply in_flat_map. exists (p mod W).
    pose proof (Nat.mod_upper_bound p W ltac:(lia)) as B.
    split; [apply in_seq; lia|].
    rewrite range_step_shard by exact B.
    apply in_map_iff. exists (p / W). split.
    + pose proof (Nat.div_mod_eq p W). lia.
    + apply in_seq. split; [lia|]. cbn.
      apply Nat.Div0.div_lt_upper_bound. lia.
Qed.

Lemma items_at_all_positions {A} (l : list A) :
  flat_map (item_at l) (seq 0 (length l)) = l.
Proof.
  induction l as [|x l IH]; [reflexivity|].
  cbn [length seq flat_map]. rewrite <- seq_shift.
  unfold item_at at 1. cbn [nth_error app]. f_equal.
  rewrite flat_map_concat_map, map_map, <- flat_map_concat_map.
  exact IH.
Qed.

(** Taken together, the strided slices of all ranks rearrange the list. *)
Lemma shards_permutation {A} (l : list A) (num W : nat) :
  0 < W ->
  length l = num * W ->
  Permutation
    (flat_map (fun rank => slice_step l rank (num * W) W) (seq 0 W)) l.
Proof.
  intros HW Hl. unfold slice_step.
  rewrite <- (flat_map_flat_map (item_at l)
                (fun rank => range_step rank (num * W) W)).
  rewrite <- (positions_permutation num W HW), <- Hl.
  rewrite items_at_all_positions. reflexivity.
Qed.

(** ** Batching *)

Lemma batch_sampler_keeps_all (batch_size : nat) (indices batch : list nat) :
  concat (batch_sampler batch_size false batch indices) = batch ++ indices.
Proof.
  revert batch. induction indices as [|idx rest IH]; intros batch.
  - cbn. destruct batch; cbn; rewrite ?app_nil_r; reflexivity.
  - cbn [batch_sampler].
    destruct (length (batch ++ [idx]) =? batch_size).
    + cbn [concat]. rewrite IH, <- app_assoc. reflexivity.
    + rewrite IH, <- app_assoc. reflexivity.
Qed.

Lemma batch_sampler_drops_few (batch_size : nat) (indices batch : list nat) :
  length batch < batch_size ->
  exists tail,
    batch ++ indices = concat (batch_sampler batch_size true batch indices) ++ tail
    /\ length tail < batch_size.
Proof.
  revert batch. induction indices as [|idx rest IH]; intros batch Hb.
  - exists batch. cbn. rewrite app_nil_r. auto.
  - cbn [batch_sampler].
    destruct (Nat.eqb_spec (length (batch ++ [idx])) batch_size) as [E|E].
    + destruct (IH [] ltac:(cbn; lia)) as (tail & Ht & Hl).
      exists tail. cbn [concat app] in Ht |- *.
      rewrite <- app_assoc, <- Ht, <- app_assoc. auto.
    + rewrite length_app in E. cbn in E.
      destruct (IH (batch ++ [idx])
                  ltac:(rewrite length_app; cbn; lia)) as (tail & Ht & Hl).
      exists tail. rewrite <- app_assoc in Ht. auto.
Qed.

(** ** What padding and slicing keep *)

Lemma in_firstn {A} (k : nat) (l : list A) (x : A) :
  In x (firstn k l) -> In x l.
Proof.
  intros H. rewrite <- (firstn_skipn k l). apply in_or_app. left. exact H.
Qed.

(** Padding repeats indices of the permutation and adds no other. *)
Lemma pad_adds_nothing (indices : list nat) (total x : nat) :
  In x (pad indices total) -> In x indices.
Proof.
  unfold pad.
  destruct (total - length indices <=? length indices);
    intros H; apply in_app_or in H as [H|H]; auto.
  - apply in_firstn in H. exact H.
  - apply in_firstn in H. apply in_concat in H as (l & Hl & Hx).
    apply repeat_spec in Hl. subst l. exact Hx.
Qed.

Lemma slice_step_incl {A} (l : list A) (start stop step : nat) (x : A) :
  In x (slice_step l start stop step) -> In x l.
Proof.
  unfold slice_step. intros H.
  apply in_flat_map in H as (p & _ & Hp). unfold item_at in Hp.
  destruct (nth_error l p) as [y|] eqn:E; [|contradiction].
  destruct Hp as [<-|[]]. apply nth_error_In with (n := p). exact E.
Qed.

Lemma slice_step_length {A} (l : list A) (num W rank : nat) :
  rank < W ->
  length l = num * W ->
  length (slice_step l rank (num * W) W) = num.
Proof.
  intros Hr Hl. unfold slice_step.
  rewrite range_step_shard by exact Hr.
  rewrite (flat_map_length_const _ 1).
  - rewrite length_map, length_seq. lia.
  - intros p Hp. apply in_map_iff in Hp as (j & <- & Hj).
    apply in_seq in Hj. unfold item_at.
    destruct (nth_error l (rank + j * W)) as [x|] eqn:E; [reflexivity|].
    apply nth_error_None in E. nia.
Qed.

(** The item at position [q] goes to the replica of rank [q mod W]. *)
Lemma slice_step_holds {A} (l : list A) (num W q : nat) (x : A) :
  0 < W ->
  q < num * W ->
  nth_error l q = Some x ->
  In x (slice_step l (q mod W) (num * W) W).
Proof.
  intros HW Hq E. unfold slice_step.
  pose proof (Nat.mod_upper_bound q W ltac:(lia)) as B.
  apply in_flat_map. exists q. split.
  - rewrite range_step_shard by exact B.
    apply in_map_iff. exists (q / W). split.
    + pose proof (Nat.div_mod_eq q W). lia.
    + apply in_seq. split; [lia|]. cbn.
      apply Nat.Div0.div_lt_upper_bound. lia.
  - unfold item_at. rewrite E. left. reflexivity.
Qed.

(** The padded list begins with the first index of the permutation, and its
    padding begins with that index again. *)
Lemma pad_first (x : nat) (rest : list nat) (total : nat) :
  nth_error (pad (x :: rest) total) 0 = Some x.
Proof.
  unfold pad.
  destruct (total - length (x :: rest) <=? length (x :: rest)); reflexivity.
Qed.

Lemma pad_wraps (x : nat) (rest : list nat) (total : nat) :
  length (x :: rest) < total ->
  nth_error (pad (x :: rest) total) (length (x :: rest)) = Some x.
Proof.
  intros H. unfold pad.
  set (l := x :: rest) in *.
  destruct (total - length l <=? length l).
  - rewrite nth_error_app2 by lia. rewrite Nat.sub_diag.
    destruct (total - length l) as [|p] eqn:P; [lia|]. reflexivity.
  - rewrite nth_error_app2 by lia. rewrite Nat.sub_diag.
    destruct (total - length l) as [|p] eqn:P; [lia|].
    assert (K : exists k, ceil_div (S p) (length l) = S k).
    { unfold ceil_div.
      destruct ((S p + length l - 1) / length l) as [|k] eqn:D; [|eauto].
      apply Nat.div_small_iff in D; subst l; cbn [length] in *; lia. }
    destruct K as [k ->]. reflexivity.
Qed.

Section Facts.

Variable randperm : Z -> nat -> list nat.

(** [torch.randperm(n)] is a permutation of [0 .. n-1], whatever the seed. *)
Hypothesis randperm_permutes :
  forall (s : Z) (n : nat), Permutation (randperm s n) (seq 0 n).

Abbreviation sampler_indices := (sampler_indices randperm).
Abbreviation build_data_loader := (build_data_loader randperm).
Abbreviation assigned := (assigned randperm).
Abbreviation all_assigned := (all_assigned randperm).

Lemma randperm_length (s : Z) (n : nat) : length (randperm s n) = n.
Proof. rewrite (Permutation_length (randperm_permutes s n)). apply length_seq. Qed.

Lemma padded_length (n W : nat) (epoch : Z) :
  0 < W ->
  length (pad (randperm (0 + epoch)%Z n) (total_size n W)) = total_size n W.
Proof.
  intros HW. apply pad_length; rewrite randperm_length.
  - apply total_size_ge. exact HW.
  - intros ->. apply total_size_zero. exact HW.
Qed.

Lemma assigned_without_drop (n batch_size W rank : nat) (epoch : Z) :
  assigned n batch_size false W rank epoch = sampler_indices n W rank epoch.
Proof.
  unfold Loader.assigned, Loader.build_data_loader.
  apply batch_sampler_keeps_all.
Qed.

Lemma all_sampled_permutation (n W : nat) (epoch : Z) :
  0 < W ->
  Permutation
    (flat_map (fun rank => sampler_indices n W rank epoch) (seq 0 W))
    (pad (randperm (0 + epoch)%Z n) (total_size n W)).
Proof.
  intros HW. unfold Loader.sampler_indices.
  change (total_size n W) with (num_samples n W * W).
  apply shards_permutation; [exact HW|].
  exact (padded_length n W epoch HW).
Qed.

Lemma all_assigned_without_drop (n batch_size W : nat) (epoch : Z) :
  all_assigned n batch_size false W epoch
  = flat_map (fun rank => sampler_indices n W rank epoch) (seq 0 W).
Proof.
  unfold Loader.all_assigned. apply flat_map_ext.
  intros rank. apply assigned_without_drop.
Qed.

(** C7 (as PyTorch's sampler and loader behave): for [W >= 1] replicas and
    batches of at least one element,
    - without dropping, every index of the dataset is assigned to some
      replica;
    - when [W] divides the size of the dataset, the assignments of the [W]
      replicas together are a rearrangement of the indices, so that every
      index is assigned exactly once;
    - without dropping, a replica's batches hold exactly the indices its
      sampler delivers, in that order; with dropping they hold all of them
      but a tail of at most [batch_size - 1];
    - the batches depend on the epoch through the permutation only;
    - every replica is assigned [ceil(n / W)] indices, and the assignments
      of the replicas together are a rearrangement of the padded
      permutation, which is the permutation followed by its own leading
      indices when the padding is no longer than the permutation;
    - when [W] does not divide the size of the dataset, more indices are
      assigned than the dataset has, the first index of the permutation is
      assigned both to replica 0 and to replica [n mod W], which is another
      replica, and the assignments are not free of repetition. *)
Theorem shards_cover_dataset (n batch_size W : nat) (epoch : Z) :
  0 < W ->
  0 < batch_size ->
  (forall i, i < n -> In i (all_assigned n batch_size false W epoch))
  /\ (n mod W = 0 ->
      Permutation (all_assigned n batch_size false W epoch) (seq 0 n))
  /\ (forall rank,
        assigned n batch_size false W rank epoch
        = sampler_indices n W rank epoch)
  /\ (forall rank,
        exists tail,
          sampler_indices n W rank epoch
          = assigned n batch_size true W rank epoch ++ tail
          /\ length tail <= batch_size - 1)
  /\ (forall epoch' drop_last rank,
        randperm (0 + epoch)%Z n = randperm (0 + epoch')%Z n ->
        build_data_loader n batch_size drop_last W rank epoch
        = build_data_loader n batch_size drop_last W rank epoch')
  /\ (forall rank,
        rank < W ->
        length (assigned n batch_size false W rank epoch) = ceil_div n W)
  /\ Permutation (all_assigned n batch_size false W epoch)
       (pad (randperm (0 + epoch)%Z n) (total_size n W))
  /\ (total_size n W - n <= n ->
      Permutation (all_assigned n batch_size false W epoch)
        (randperm (0 + epoch)%Z n
         ++ firstn (total_size n W - n) (randperm (0 + epoch)%Z n)))
  /\ (n mod W <> 0 ->
      n < length (all_assigned n batch_size false W epoch)
      /\ n mod W < W
      /\ (exists i,
            nth_error (randperm (0 + epoch)%Z n) 0 = Some i
            /\ i < n
            /\ In i (assigned n batch_size false W 0 epoch)
            /\ In i (assigned n batch_size false W (n mod W) epoch))
      /\ ~ NoDup (all_assigned n batch_size false W epoch)).
Proof.
  intros HW Hb.
  assert (PP : Permutation (all_assigned n batch_size false W epoch)
                 (pad (randperm (0 + epoch)%Z n) (total_size n W))).
  { rewrite all_assigned_without_drop.
    exact (all_sampled_permutation n W epoch HW). }
  split; [|split; [|split; [|split; [|split; [|split; [|split; [|split]]]]]]].
  - intros i Hi. rewrite all_assigned_without_drop.
    apply (Permutation_in _ (Permutation_sym (all_sampled_permutation n W epoch HW))).
    apply pad_keeps.
    apply (Permutation_in _ (Permutation_sym (randperm_permutes _ n))).
    apply in_seq. lia.
  - intros Hm. rewrite all_assigned_without_drop.
    rewrite (all_sampled_permutation n W epoch HW).
    rewrite (total_size_exact n W HW Hm).
    rewrite <- (randperm_length (0 + epoch)%Z n) at 2.
    rewrite pad_exact. apply randperm_permutes.
  - intros rank. apply assigned_without_drop.
  - intros rank. unfold Loader.assigned, Loader.build_data_loader.
    destruct (batch_sampler_drops_few batch_size
                (sampler_indices n W rank epoch) [] ltac:(cbn; lia))
      as (tail & Ht & Hl).
    exists tail. cbn [app] in Ht. split; [exact Ht|lia].
  - intros epoch' drop_last rank E.
    unfold Loader.build_data_loader, Loader.sampler_indices.
    rewrite E. reflexivity.
  - intros rank Hr. rewrite assigned_without_drop.
    unfold Loader.sampler_indices.
    change (total_size n W) with (num_samples n W * W).
    change (ceil_div n W) with (num_samples n W).
    apply slice_step_length; [exact Hr|].
    exact (padded_length n W epoch HW).
  - exact PP.
  - intros Hp. rewrite PP. unfold pad. rewrite randperm_length.
    destruct (Nat.leb_spec (total_size n W - n) n) as [_|H]; [|lia].
    reflexivity.
  - intros Hm.
    assert (Hn : 0 < n).
    { destruct (Nat.eq_dec n 0) as [E|E]; [|lia].
      exfalso. apply Hm. rewrite E. apply Nat.Div0.mod_0_l. }
    assert (Ht : n < total_size n W).
    { pose proof (total_size_ge n W HW) as G.
      destruct (Nat.eq_dec (total_size n W) n) as [E|E]; [|lia].
      exfalso. apply Hm. rewrite <- E. unfold total_size.
      apply Nat.Div0.mod_mul. }
    assert (Hlen : length (all_assigned n batch_size false W epoch)
                   = total_size n W).
    { rewrite (Permutation_length PP). exact (padded_length n W epoch HW). }
    assert (Ht0 : 0 < num_samples n W * W)
      by (change (num_samples n W * W) with (total_size n W); lia).
    pose proof (Nat.mod_upper_bound n W ltac:(lia)) as HB.
    split; [lia|]. split; [exact HB|]. split.
    + pose proof (randperm_length (0 + epoch)%Z n) as L.
      pose proof (randperm_permutes (0 + epoch)%Z n) as RP.
      assert (A0 : forall rank,
                 assigned n batch_size false W rank epoch
                 = slice_step (pad (randperm (0 + epoch)%Z n) (total_size n W))
                     rank (num_samples n W * W) W)
        by (intros rank; rewrite assigned_without_drop; reflexivity).
      rewrite !A0.
      destruct (randperm (0 + epoch)%Z n) as [|x rest]; [cbn in L; lia|].
      exists x. split; [reflexivity|]. split.
      { pose proof (Permutation_in _ RP (in_eq x rest)) as Hx.
        apply in_seq in Hx. lia. }
      split.
      * pose proof (slice_step_holds (pad (x :: rest) (total_size n W))
                      (num_samples n W) W 0 x HW Ht0
                      (pad_first x rest (total_size n W))) as H0.
        rewrite Nat.Div0.mod_0_l in H0. exact H0.
      * pose proof (pad_wraps x rest (total_size n W)) as Hw.
        rewrite L in Hw.
        apply (slice_step_holds (pad (x :: rest) (total_size n W))
                 (num_samples n W) W n x HW Ht (Hw Ht)).
    + intros ND.
      assert (I : incl (all_assigned n batch_size false W epoch) (seq 0 n)).
      { intros y Hy.
        apply (Permutation_in _ PP) in Hy. apply pad_adds_nothing in Hy.
        exact (Permutation_in _ (randperm_permutes _ n) Hy). }
      pose proof (NoDup_incl_length ND I) as Le.
      rewrite Hlen, length_seq in Le. lia.
Qed.

End Facts.

(** Four elements on two replicas, where nothing is padded, and three
    elements on two replicas, where one index is. *)
Lemma shards_cover_dataset_witness :
  ((forall i, i < 4 -> In i (all_assigned in_order 4 1 false 2 0))
   /\ Permutation (all_assigned in_order 4 1 false 2 0) (seq 0 4))
  /\ (length (assigned in_order 3 1 false 2 1 0) = 2
      /\ exists i,
           i < 3
           /\ In i (assigned in_order 3 1 false 2 0 0)
           /\ In i (assigned in_order 3 1 false 2 (3 mod 2) 0)).
Proof.
  split.
  - pose proof (shards_cover_dataset in_order
                  (fun s n => Permutation_refl (seq 0 n)) 4 1 2 0%Z
                  ltac:(lia) ltac:(lia)) as (H1 & H2 & _).
    split; [exact H1|]. apply H2. reflexivity.
  - pose proof (shards_cover_dataset in_order
                  (fun s n => Permutation_refl (seq 0 n)) 3 1 2 0%Z
                  ltac:(lia) ltac:(lia))
      as (_ & _ & _ & _ & _ & L & _ & _ & P).
    split; [apply L; lia|].
    destruct P as (_ & _ & (i & _ & Hi & H0 & H1) & _);
      [cbn; discriminate|].
    exists i. auto.
Defined.

(** Three elements on two replicas: the permutation [0; 1; 2] is padded to
    [0; 1; 2; 0], replica 0 is assigned [0; 2] and replica 1 is assigned
    [1; 0], so index 0 is in both shards. *)
Lemma padded_index_in_two_shards :
  assigned in_order 3 1 false 2 0 0 = [0; 2]
  /\ assigned in_order 3 1 false 2 1 0 = [1; 0]
  /\ In 0 (assigned in_order 3 1 false 2 0 0)
  /\ In 0 (assigned in_order 3 1 false 2 1 0)
  /\ ~ NoDup (all_assigned in_order 3 1 false 2 0).
Proof.
  split; [reflexivity|]. split; [reflexivity|].
  split; [cbn; auto|]. split; [cbn; auto|].
  cbn. intros H. inversion H as [|x l Hn _]; subst.
  apply Hn. cbn. auto.
Qed.

End LoaderFacts.

(* ===================================================================== *)
(** * Further properties: shapes of shards and batches *)
(* ===================================================================== *)

Module LoaderShapeFacts.

Import Loader LoaderFacts Dataloaders Examples.

Local Open Scope nat_scope.

(** The number of batches the batch sampler hands over. *)
Lemma batch_sampler_count (batch_size : nat) (drop_last : bool)
    (indices batch : list nat) :
  0 < batch_size ->
  length batch < batch_size ->
  length (batch_sampler batch_size drop_last batch indices)
  = if drop_last
    then (length batch + length indices) / batch_size
    else (length batch + length indices + batch_size - 1) / batch_size.
Proof.
  intros Hb. revert batch.
  induction indices as [|idx rest IH]; intros batch Hl.
  - cbn [batch_sampler length]. rewrite Nat.add_0_r.
    destruct drop_last; cbn [negb andb].
    + symmetry. apply Nat.div_small. exact Hl.
    + destruct batch as [|x batch]; cbn [length Nat.ltb Nat.leb].
      * symmetry. apply Nat.div_small. lia.
      * cbn [length] in Hl. cbn [length].
        apply Nat.div_unique with (r := length batch); lia.
  - cbn [batch_sampler length].
    destruct (Nat.eqb_spec (length (batch ++ [idx])) batch_size) as [E|E];
      rewrite length_app in E; cbn [length] in E.
    + cbn [length]. rewrite (IH [] ltac:(cbn; lia)). cbn [length].
      destruct drop_last.
      * replace (length batch + S (length rest))
          with (1 * batch_size + length rest) by lia.
        rewrite Nat.div_add_l by lia. reflexivity.
      * replace (length batch + S (length rest) + batch_size - 1)
          with (1 * batch_size + (0 + length rest + batch_size - 1)) by lia.
        rewrite Nat.div_add_l by lia. reflexivity.
    + rewrite (IH (batch ++ [idx]))
        by (rewrite length_app; cbn [length]; lia).
      rewrite length_app. cbn [length].
      destruct drop_last; f_equal; lia.
Qed.

(** Every batch handed over before the last is full; the last one is short
    only when the tail is kept. *)
Lemma batch_sampler_shape (batch_size : nat) (drop_last : bool)
    (indices batch : list nat) :
  0 < batch_size ->
  length batch < batch_size ->
  exists full last,
    batch_sampler batch_size drop_last batch indices = full ++ last
    /\ Forall (fun b => length b = batch_size) full
    /\ (last = []
        \/ (drop_last = false
            /\ exists b, last = [b] /\ 1 <= length b < batch_size)).
Proof.
  intros Hb. revert batch.
  induction indices as [|idx rest IH]; intros batch Hl.
  - cbn [batch_sampler]. destruct drop_last; cbn [negb andb].
    + exists [], []. auto.
    + destruct (Nat.ltb_spec 0 (length batch)) as [H|H].
      * exists [], [batch]. repeat split; auto. right. split; auto.
        exists batch. auto.
      * exists [], []. auto.
  - cbn [batch_sampler].
    destruct (Nat.eqb_spec (length (batch ++ [idx])) batch_size) as [E|E].
    + destruct (IH [] ltac:(cbn; lia)) as (full & last & R & F & L).
      exists ((batch ++ [idx]) :: full), last. rewrite R.
      repeat split; auto.
    + rewrite length_app in E. cbn [length] in E.
      apply IH. rewrite length_app. cbn [length]. lia.
Qed.

Section Facts.

Variable randperm : Z -> nat -> list nat.
Hypothesis randperm_permutes :
  forall (s : Z) (n : nat), Permutation (randperm s n) (seq 0 n).

Abbreviation sampler_indices := (sampler_indices randperm).
Abbreviation build_data_loader := (build_data_loader randperm).

Lemma sampler_indices_length (n W rank : nat) (epoch : Z) :
  rank < W -> length (sampler_indices n W rank epoch) = num_samples n W.
Proof.
  intros Hr. unfold Loader.sampler_indices.
  change (total_size n W) with (num_samples n W * W).
  apply slice_step_length; [exact Hr|].
  apply (padded_length randperm randperm_permutes n W epoch). lia.
Qed.

Lemma loader_pass_length
    (n batch_size W rank : nat) (drop_last : bool) (epoch : Z) :
  rank < W ->
  0 < batch_size ->
  length (build_data_loader n batch_size drop_last W rank epoch)
  = loader_len n batch_size drop_last W.
Proof.
  intros Hr Hb.
  unfold Loader.build_data_loader, loader_len.
  rewrite batch_sampler_count by (cbn; lia).
  cbn [length Nat.add]. fold sampler_indices.
  rewrite (sampler_indices_length n W rank epoch Hr). reflexivity.
Qed.

(** Every replica is handed the same number of indices,
    [ceil(n / world_size)], in every epoch, and its loader delivers
    [len(data_loader)] batches in every epoch: replicas take the same number
    of steps per epoch. *)
Theorem replicas_step_in_lockstep
    (n batch_size W rank : nat) (drop_last : bool) (epoch : Z) :
  rank < W ->
  0 < batch_size ->
  length (sampler_indices n W rank epoch) = num_samples n W
  /\ length (build_data_loader n batch_size drop_last W rank epoch)
     = loader_len n batch_size drop_last W.
Proof.
  intros Hr Hb. split.
  - apply sampler_indices_length. exact Hr.
  - apply loader_pass_length; assumption.
Qed.

(** The batches of a pass are full except possibly the last: with
    [drop_last] every batch holds [batch_size] indices; without it only
    the last batch may hold fewer, and it is never empty. *)
Theorem batches_full_but_last
    (n batch_size W rank : nat) (drop_last : bool) (epoch : Z) :
  0 < batch_size ->
  exists full last,
    build_data_loader n batch_size drop_last W rank epoch = full ++ last
    /\ Forall (fun b => length b = batch_size) full
    /\ (last = []
        \/ (drop_last = false
            /\ exists b, last = [b] /\ 1 <= length b < batch_size)).
Proof.
  intros Hb. unfold Loader.build_data_loader.
  apply batch_sampler_shape; cbn; lia.
Qed.

(** No replica is ever handed an index outside the dataset, padded or
    not. *)
Theorem sampled_indices_in_range (n W rank : nat) (epoch : Z) (i : nat) :
  In i (sampler_indices n W rank epoch) -> i < n.
Proof.
  intros H. unfold Loader.sampler_indices in H.
  apply slice_step_incl, pad_adds_nothing in H.
  apply (Permutation_in _ (randperm_permutes _ n)) in H.
  apply in_seq in H. lia.
Qed.

End Facts.

Lemma replicas_step_in_lockstep_witness :
  length (Loader.sampler_indices in_order 7 3 2 5) = 3
  /\ length (Loader.build_data_loader in_order 7 2 false 3 2 5) = 2.
Proof.
  apply (replicas_step_in_lockstep in_order
           (fun s n => Permutation_refl (seq 0 n)) 7 2 3 2 false 5%Z);
    lia.
Defined.

Lemma batches_full_but_last_witness :
  exists full last,
    Loader.build_data_loader in_order 7 2 false 3 2 5 = full ++ last
    /\ Forall (fun b => length b = 2) full
    /\ (last = []
        \/ (false = false /\ exists b, last = [b] /\ 1 <= length b < 2)).
Proof.
  apply (batches_full_but_last in_order 7 2 3 2 false 5%Z). lia.
Defined.

Lemma sampled_indices_in_range_witness : 0 < 7.
Proof.
  apply (sampled_indices_in_range in_order
           (fun s n => Permutation_refl (seq 0 n)) 7 3 0 5%Z 0).
  cbn. auto.
Defined.

End LoaderShapeFacts.

(* ===================================================================== *)
(** * Further properties: the schedule of a run *)
(* ===================================================================== *)

Module ScheduleFacts.

Import Interval IntervalFacts Train TrainFacts Schedule.

Section Facts.

Variables batch loss world : Type.
Variable loss_zero : loss.
Variable loss_add : loss -> loss -> loss.
Variable train_step : world -> batch -> world * loss.
Variable train_dataloader : Z -> list batch.
Variable end_of_epoch_callback : bool.
Variable a : Args.

Abbreviation St := (state batch loss world).
Abbreviation Ev := (event batch loss).
Abbreviation after_step := (after_step batch loss world loss_zero a).
Abbreviation batch_body :=
  (batch_body batch loss world loss_zero loss_add train_step a).
Abbreviation epoch_body :=
  (epoch_body batch loss world loss_zero loss_add train_step
     train_dataloader end_of_epoch_callback a).
Abbreviation _train :=
  (_train batch loss world loss_zero loss_add train_step
     train_dataloader end_of_epoch_callback a).
Abbreviation for_each := (for_each batch loss world).
Abbreviation entry_state := (entry_state batch loss world loss_zero).
Abbreviation log_interval_usable := (log_interval_usable a).
Abbreviation interval_events := (interval_events batch loss a).
Abbreviation total_after_actions := (total_after_actions loss loss_zero a).
Abbreviation steps_events :=
  (steps_events batch loss world loss_zero loss_add train_step a).
Abbreviation total_after_steps :=
  (total_after_steps batch loss world loss_zero loss_add train_step a).
Abbreviation epoch_events :=
  (epoch_events batch loss world loss_zero loss_add train_step
     train_dataloader end_of_epoch_callback a).
Abbreviation epochs_events :=
  (epochs_events batch loss world loss_zero loss_add train_step
     train_dataloader end_of_epoch_callback a).
Abbreviation world_after := (world_after batch loss world train_step).
Abbreviation batches_of := (batches_of batch train_dataloader a).

(** ** The loop against its closed form *)

Lemma after_step_exact (s : St) :
  log_interval_usable ->
  after_step s
  = (mkState (iteration s)
       (total_after_actions (iteration s) (total_lm_loss s))
       (start_iteration s) (the_world s)
       (trace s ++ interval_events (iteration s) (total_lm_loss s)),
     Ok tt).
Proof.
  intros (k & Hk & Hk0). destruct s as [it total si w t].
  unfold Train.after_step, Schedule.interval_events,
    Schedule.total_after_actions, bind, get, lift, when, emit, modify, ret.
  cbn [iteration total_lm_loss start_iteration the_world trace].
  rewrite (should_log_total a it k Hk Hk0).
  destruct (should_save_total a it) as [cs ->].
  destruct (should_eval_total a it) as [ce ->].
  unfold log_divisor. rewrite Hk.
  destruct (Z.eqb_spec k 0) as [E|_]; [contradiction|].
  destruct (it mod k =? 0), cs, ce;
    unfold add_event, set_total_lm_loss; cbn;
    rewrite <- ?app_assoc, ?app_nil_r; reflexivity.
Qed.

Lemma batch_body_exact (ep : Z) (j : nat) (b : batch) (s : St) :
  log_interval_usable ->
  start_iteration s = 0 ->
  let total' := loss_add (total_lm_loss s) (snd (train_step (the_world s) b)) in
  batch_body ep (Z.of_nat j, b) s
  = (mkState (iteration s + 1)
       (total_after_actions (iteration s + 1) total') 0
       (fst (train_step (the_world s) b))
       (trace s ++ DrawBatch ep (Z.of_nat j) b :: TrainStep b
          :: interval_events (iteration s + 1) total'),
     Ok tt).
Proof.
  intros Hlog Hsi total'. destruct s as [it total si w t].
  cbn [start_iteration] in Hsi. subst si.
  unfold Train.batch_body, run_train_step, bind, get, emit, modify, ret.
  cbn -[Train.after_step Z.of_nat].
  destruct (Z.ltb_spec (Z.of_nat j) 0) as [H|_]; [lia|].
  cbn -[Train.after_step Z.of_nat].
  rewrite after_step_exact by exact Hlog.
  unfold add_event, set_total_lm_loss, set_iteration, set_start_iteration,
    set_world.
  cbn [iteration total_lm_loss start_iteration the_world trace].
  rewrite <- ?app_assoc. reflexivity.
Qed.

Lemma steps_exact (ep : Z) (bs : list batch) :
  log_interval_usable ->
  forall (j : nat) (s : St),
    start_iteration s = 0 ->
    for_each (batch_body ep) (combine (map Z.of_nat (seq j (length bs))) bs) s
    = (mkState (iteration s + Z.of_nat (length bs))
         (total_after_steps (iteration s) (total_lm_loss s) (the_world s) bs)
         0 (world_after (the_world s) bs)
         (trace s
          ++ steps_events ep j (iteration s) (total_lm_loss s) (the_world s) bs),
       Ok tt).
Proof.
  intros Hlog. induction bs as [|b bs IH]; intros j s Hsi.
  - destruct s as [it total si w t]. cbn in Hsi |- *. subst si.
    rewrite Z.add_0_r, app_nil_r. reflexivity.
  - cbn [length seq map combine Train.for_each]. unfold bind.
    rewrite (batch_body_exact ep j b s Hlog Hsi).
    rewrite IH by reflexivity.
    cbn [iteration total_lm_loss start_iteration the_world trace
         Schedule.steps_events Schedule.total_after_steps
         Schedule.world_after fold_left].
    rewrite <- !app_assoc. cbn [app].
    replace (iteration s + Z.of_nat (S (length bs)))
      with (iteration s + 1 + Z.of_nat (length bs)) by lia.
    reflexivity.
Qed.

Lemma epoch_exact (ep : Z) (s : St) :
  log_interval_usable ->
  start_iteration s = 0 ->
  let bs := train_dataloader (seed a + ep) in
  epoch_body ep s
  = (mkState (iteration s + Z.of_nat (length bs))
       (total_after_steps (iteration s) (total_lm_loss s) (the_world s) bs)
       0 (world_after (the_world s) bs)
       (trace s
        ++ epoch_events ep (iteration s) (total_lm_loss s) (the_world s)),
     Ok tt).
Proof.
  intros Hlog Hsi bs.
  unfold Train.epoch_body, Schedule.epoch_events, bind, when, get, emit,
    modify, ret, enumerate.
  fold bs. rewrite (steps_exact ep bs Hlog) by exact Hsi.
  destruct s as [it total si w t].
  unfold add_event.
  cbn [iteration total_lm_loss start_iteration the_world trace fst snd].
  destruct (truthy_str (save a)), end_of_epoch_callback;
    unfold add_event;
    cbn [iteration total_lm_loss start_iteration the_world trace];
    rewrite <- ?app_assoc; cbn [app]; rewrite ?app_nil_r; reflexivity.
Qed.

Lemma epochs_exact (eps : list Z) :
  log_interval_usable ->
  forall s : St,
    start_iteration s = 0 ->
    exists total',
      for_each epoch_body eps s
      = (mkState (iteration s + Z.of_nat (length (batches_of eps))) total'
           0 (world_after (the_world s) (batches_of eps))
           (trace s
            ++ epochs_events eps (iteration s) (total_lm_loss s) (the_world s)),
         Ok tt).
Proof.
  intros Hlog. induction eps as [|ep eps IH]; intros s Hsi.
  - destruct s as [it total si w t]. cbn in Hsi |- *. subst si.
    exists total. rewrite Z.add_0_r, app_nil_r. reflexivity.
  - cbn [Train.for_each]. unfold bind.
    rewrite (epoch_exact ep s Hlog Hsi).
    match goal with
    | |- context [for_each epoch_body eps ?s1] =>
        destruct (IH s1 eq_refl) as (total' & R); rewrite R
    end.
    exists total'.
    cbn [iteration total_lm_loss start_iteration the_world trace
         Schedule.epochs_events].
    unfold Schedule.batches_of. cbn [flat_map].
    unfold Schedule.world_after. rewrite fold_left_app, length_app.
    rewrite <- !app_assoc.
    replace (iteration s
             + Z.of_nat (length (train_dataloader (seed a + ep))
                         + length (flat_map
                                     (fun ep0 => train_dataloader (seed a + ep0))
                                     eps))%nat)
      with (iteration s
            + Z.of_nat (length (train_dataloader (seed a + ep)))
            + Z.of_nat (length (flat_map
                                  (fun ep0 => train_dataloader (seed a + ep0))
                                  eps))) by lia.
    reflexivity.
Qed.

(** A run with a usable log interval and a non-empty loader completes, and
    its events are those of the closed form. *)
Lemma train_exact (iteration0 : Z) (w : world) :
  log_interval_usable ->
  train_iters_per_epoch a <> 0 ->
  exists s',
    _train (entry_state iteration0 w) = (s', Ok tt)
    /\ trace s' = epochs_events (range 0 (epochs a)) 0 loss_zero w
    /\ iteration s' = Z.of_nat (length (batches_of (range 0 (epochs a))))
    /\ the_world s' = world_after w (batches_of (range 0 (epochs a)))
    /\ start_iteration s' = 0.
Proof.
  intros Hlog Hnz.
  rewrite (train_unfold batch loss world loss_zero loss_add train_step
             train_dataloader end_of_epoch_callback a iteration0 w Hnz).
  destruct (epochs_exact (range 0 (epochs a)) Hlog
              (mkState 0 loss_zero 0 w []) eq_refl) as (total' & R).
  rewrite R. eexists. split; [reflexivity|]. cbn. repeat split.
Qed.

(** ** Readings of the closed form *)

Lemma firing_cons (test : Z -> result bool) (lo hi : Z) :
  lo < hi ->
  firing test lo hi
  = (if fired (test lo) then [lo] else []) ++ firing test (lo + 1) hi.
Proof.
  intros H. unfold firing. rewrite (PyFacts.range_cons lo hi H).
  cbn [filter]. destruct (fired (test lo)); reflexivity.
Qed.

Lemma firing_empty (test : Z -> result bool) (lo : Z) : firing test lo lo = [].
Proof. unfold firing, range. rewrite Z.sub_diag. reflexivity. Qed.

Lemma firing_app (test : Z -> result bool) (lo mid hi : Z) :
  lo <= mid <= hi ->
  firing test lo hi = firing test lo mid ++ firing test mid hi.
Proof.
  intros H. unfold firing.
  rewrite (PyFacts.range_split lo mid hi H). apply filter_app.
Qed.

Lemma interval_events_readings (it : Z) (total : loss) :
  reported (interval_events it total)
    = (if fired (should_log a it) then [it] else [])
  /\ saved AtInterval (interval_events it total)
    = (if fired (should_save a it) then [it] else [])
  /\ evaluated (interval_events it total)
    = (if fired (should_eval a it) then [it] else [])
  /\ saved AtEpochEnd (interval_events it total) = []
  /\ epochs_set (interval_events it total) = []
  /\ called_back (interval_events it total) = [].
Proof.
  unfold Schedule.interval_events.
  destruct (fired (should_log a it)) eqn:F.
  - assert (K : exists k, log_interval a = Some k).
    { unfold fired in F.
      destruct (should_log a it) as [[|]|] eqn:E; try discriminate.
      apply should_log_true in E as (k & Hk & _). eauto. }
    destruct K as [k ->].
    destruct (fired (should_save a it)), (fired (should_eval a it));
      repeat split.
  - destruct (fired (should_save a it)), (fired (should_eval a it));
      repeat split.
Qed.

Lemma steps_events_readings (ep : Z) (bs : list batch) :
  forall (j : nat) (it : Z) (total : loss) (w : world),
    let hi := it + Z.of_nat (length bs) + 1 in
    let t := steps_events ep j it total w bs in
    reported t = firing (should_log a) (it + 1) hi
    /\ saved AtInterval t = firing (should_save a) (it + 1) hi
    /\ evaluated t = firing (should_eval a) (it + 1) hi
    /\ saved AtEpochEnd t = []
    /\ epochs_set t = []
    /\ called_back t = [].
Proof.
  induction bs as [|b bs IH]; intros j it total w hi t; subst hi t.
  - cbn [length Z.of_nat Schedule.steps_events]. rewrite Z.add_0_r.
    rewrite !firing_empty. repeat split.
  - cbn [Schedule.steps_events].
    destruct (interval_events_readings (it + 1)
                (loss_add total (snd (train_step w b))))
      as (E1 & E2 & E3 & E4 & E5 & E6).
    destruct (IH (S j) (it + 1)
                (total_after_actions (it + 1)
                   (loss_add total (snd (train_step w b))))
                (fst (train_step w b)))
      as (I1 & I2 & I3 & I4 & I5 & I6).
    replace (it + Z.of_nat (length (b :: bs)) + 1)
      with (it + 1 + Z.of_nat (length bs) + 1) by (cbn [length]; lia).
    rewrite (firing_cons (should_log a) (it + 1)),
      (firing_cons (should_save a) (it + 1)),
      (firing_cons (should_eval a) (it + 1)) by lia.
    unfold reported, saved, evaluated, epochs_set, called_back in *.
    cbn [flat_map app]. rewrite !flat_map_app.
    rewrite E1, E2, E3, E4, E5, E6, I1, I2, I3, I4, I5, I6.
    repeat split.
Qed.

Lemma epoch_events_readings (ep it : Z) (total : loss) (w : world) :
  let bs := train_dataloader (seed a + ep) in
  let hi := it + Z.of_nat (length bs) + 1 in
  let t := epoch_events ep it total w in
  reported t = firing (should_log a) (it + 1) hi
  /\ saved AtInterval t = firing (should_save a) (it + 1) hi
  /\ evaluated t = firing (should_eval a) (it + 1) hi
  /\ saved AtEpochEnd t
     = (if truthy_str (save a) then [it + Z.of_nat (length bs)] else [])
  /\ epochs_set t = [seed a + ep]
  /\ called_back t = (if end_of_epoch_callback then [ep] else []).
Proof.
  intros bs hi t. subst hi t. unfold Schedule.epoch_events. fold bs.
  destruct (steps_events_readings ep bs 0 it total w)
    as (I1 & I2 & I3 & I4 & I5 & I6).
  unfold reported, saved, evaluated, epochs_set, called_back in *.
  cbn [flat_map app]. rewrite !flat_map_app.
  rewrite I1, I2, I3, I4, I5, I6.
  destruct (truthy_str (save a)), end_of_epoch_callback;
    cbn [flat_map app]; rewrite ?app_nil_r; repeat split.
Qed.

Lemma epochs_events_readings (eps : list Z) :
  forall (it : Z) (total : loss) (w : world),
    let hi := it + Z.of_nat (length (batches_of eps)) + 1 in
    let t := epochs_events eps it total w in
    reported t = firing (should_log a) (it + 1) hi
    /\ saved AtInterval t = firing (should_save a) (it + 1) hi
    /\ evaluated t = firing (should_eval a) (it + 1) hi
    /\ epochs_set t = map (fun ep => seed a + ep) eps
    /\ called_back t = (if end_of_epoch_callback then eps else []).
Proof.
  induction eps as [|ep eps IH]; intros it total w hi t; subst hi t.
  - cbn. rewrite Z.add_0_r, !firing_empty.
    destruct end_of_epoch_callback; repeat split.
  - cbn [Schedule.epochs_events map].
    set (bs := train_dataloader (seed a + ep)).
    destruct (epoch_events_readings ep it total w)
      as (E1 & E2 & E3 & _ & E5 & E6). fold bs in E1, E2, E3.
    destruct (IH (it + Z.of_nat (length bs))
                (total_after_steps it total w bs) (world_after w bs))
      as (I1 & I2 & I3 & I5 & I6).
    assert (L : it + Z.of_nat (length (batches_of (ep :: eps))) + 1
                = it + Z.of_nat (length bs)
                  + Z.of_nat (length (batches_of eps)) + 1).
    { unfold Schedule.batches_of. cbn [flat_map]. fold bs.
      rewrite length_app. lia. }
    rewrite L.
    rewrite (firing_app (should_log a) (it + 1)
               (it + Z.of_nat (length bs) + 1)
               (it + Z.of_nat (length bs)
                + Z.of_nat (length (batches_of eps)) + 1)) by lia.
    rewrite (firing_app (should_save a) (it + 1)
               (it + Z.of_nat (length bs) + 1)
               (it + Z.of_nat (length bs)
                + Z.of_nat (length (batches_of eps)) + 1)) by lia.
    rewrite (firing_app (should_eval a) (it + 1)
               (it + Z.of_nat (length bs) + 1)
               (it + Z.of_nat (length bs)
                + Z.of_nat (length (batches_of eps)) + 1)) by lia.
    unfold reported, saved, evaluated, epochs_set, called_back in *.
    rewrite !flat_map_app.
    rewrite E1, E2, E3, E5, E6, I1, I2, I3, I5, I6.
    destruct end_of_epoch_callback; repeat split.
Qed.

(** The checkpoints written at the ends of the epochs, for a loader that
    delivers [n] batches each time. *)
Lemma epochs_events_epoch_saves (n : nat) :
  (forall sampler_epoch, length (train_dataloader sampler_epoch) = n) ->
  forall (eps : list Z) (it : Z) (total : loss) (w : world),
    saved AtEpochEnd (epochs_events eps it total w)
    = if truthy_str (save a)
      then map (fun i => it + (Z.of_nat i + 1) * Z.of_nat n)
             (seq 0 (length eps))
      else [].
Proof.
  intros Hlen. induction eps as [|ep eps IH]; intros it total w.
  - cbn. destruct (truthy_str (save a)); reflexivity.
  - cbn [Schedule.epochs_events length seq map].
    destruct (epoch_events_readings ep it total w) as (_ & _ & _ & E4 & _).
    specialize (IH (it + Z.of_nat (length (train_dataloader (seed a + ep))))
                  (total_after_steps it total w (train_dataloader (seed a + ep)))
                  (world_after w (train_dataloader (seed a + ep)))).
    unfold saved in *. rewrite flat_map_app, E4, IH, Hlen.
    destruct (truthy_str (save a)); [|reflexivity].
    cbn [app]. f_equal; [lia|].
    rewrite <- seq_shift, map_map. apply map_ext. intros i. lia.
Qed.

(** Each interval-driven action is taken at exactly the iterations, from 1
    to the number of batches of the run, at which its test holds, once each
    and in increasing order; the run completes with the counter at that
    number and has trained on every batch of every epoch in order. *)
Theorem actions_follow_the_tests (iteration0 : Z) (w : world) :
  log_interval_usable ->
  train_iters_per_epoch a <> 0 ->
  let steps := Z.of_nat (length (batches_of (range 0 (epochs a)))) in
  exists s',
    _train (entry_state iteration0 w) = (s', Ok tt)
    /\ iteration s' = steps
    /\ reported (trace s') = firing (should_log a) 1 (steps + 1)
    /\ saved AtInterval (trace s') = firing (should_save a) 1 (steps + 1)
    /\ evaluated (trace s') = firing (should_eval a) 1 (steps + 1).
Proof.
  intros Hlog Hnz steps.
  destruct (train_exact iteration0 w Hlog Hnz) as (s' & R & T & I & _).
  exists s'. split; [exact R|]. split; [exact I|].
  destruct (epochs_events_readings (range 0 (epochs a)) 0 loss_zero w)
    as (E1 & E2 & E3 & _).
  rewrite T. cbn [Z.add] in E1, E2, E3. auto.
Qed.

(** Epoch after epoch, in order: the sampler is given [seed + epoch], the
    callback (if any) is called with the index of the epoch, and (if a
    checkpoint directory is set) a checkpoint is written with the counter
    at the end of the epoch, whatever the save interval. *)
Theorem epochs_run_in_order (iteration0 : Z) (w : world) (n : nat) :
  log_interval_usable ->
  train_iters_per_epoch a <> 0 ->
  (forall sampler_epoch, length (train_dataloader sampler_epoch) = n) ->
  exists s',
    _train (entry_state iteration0 w) = (s', Ok tt)
    /\ epochs_set (trace s')
       = map (fun ep => seed a + ep) (range 0 (epochs a))
    /\ called_back (trace s')
       = (if end_of_epoch_callback then range 0 (epochs a) else [])
    /\ saved AtEpochEnd (trace s')
       = (if truthy_str (save a)
          then map (fun ep => (ep + 1) * Z.of_nat n) (range 0 (epochs a))
          else []).
Proof.
  intros Hlog Hnz Hlen.
  destruct (train_exact iteration0 w Hlog Hnz) as (s' & R & T & _).
  exists s'. split; [exact R|].
  destruct (epochs_events_readings (range 0 (epochs a)) 0 loss_zero w)
    as (_ & _ & _ & E5 & E6).
  rewrite T. split; [exact E5|]. split; [exact E6|].
  rewrite (epochs_events_epoch_saves n Hlen).
  destruct (truthy_str (save a)); [|reflexivity].
  unfold range. rewrite length_map, length_seq, map_map.
  apply map_ext. intros i. lia.
Qed.

(** ** Runs that fail *)

(** Nothing guards the logging test: when the log interval is [None] or
    zero, the run stops with [TypeError], respectively [ZeroDivisionError],
    at the first logging test, that is after the first batch of the first
    epoch has been trained on and the counter has been advanced, and before
    anything is reported, saved or evaluated. *)
Theorem unusable_log_interval_stops_after_one_step
    (iteration0 : Z) (w : world) (b : batch) (rest : list batch) :
  log_interval a = None \/ log_interval a = Some 0 ->
  train_iters_per_epoch a <> 0 ->
  0 < epochs a ->
  train_dataloader (seed a + 0) = b :: rest ->
  _train (entry_state iteration0 w)
  = (mkState 1 (loss_add loss_zero (snd (train_step w b))) 0
       (fst (train_step w b))
       [SetEpoch (seed a + 0); DrawBatch 0 0 b; TrainStep b],
     Raise (match log_interval a with
            | None => TypeError
            | Some _ => ZeroDivisionError
            end)).
Proof.
  intros Hlog Hnz He Hdl.
  rewrite (train_unfold batch loss world loss_zero loss_add train_step
             train_dataloader end_of_epoch_callback a iteration0 w Hnz).
  rewrite (PyFacts.range_cons 0 (epochs a) He).
  cbn [Train.for_each]. unfold bind at 1.
  unfold Train.epoch_body, bind, emit, modify, enumerate.
  rewrite Hdl.
  cbn [length seq map combine Train.for_each].
  unfold Train.batch_body, Train.run_train_step, Train.after_step, bind, get,
    emit, modify, lift, ret, add_event, set_start_iteration, set_world,
    set_iteration, set_total_lm_loss.
  cbn [iteration total_lm_loss start_iteration the_world trace fst snd
       Z.of_nat Z.ltb Z.compare app].
  unfold should_log.
  destruct Hlog as [-> | ->]; reflexivity.
Qed.

(** With no iteration per epoch (an empty training loader) the run stops
    with [ZeroDivisionError] when it derives its starting epoch, before
    anything has happened. *)
Lemma train_without_iterations (iteration0 : Z) (w : world) :
  train_iters_per_epoch a = 0 ->
  _train (entry_state iteration0 w)
  = (mkState 0 loss_zero 0 w [], Raise ZeroDivisionError).
Proof.
  intros H. unfold Train._train, Train.train_prologue, bind, get, lift,
    modify, ret, Train.entry_state, set_iteration, set_total_lm_loss.
  cbn [iteration total_lm_loss start_iteration the_world trace].
  unfold resume_position, floordiv. rewrite H. reflexivity.
Qed.

End Facts.

Lemma actions_follow_the_tests_witness :
  exists s',
    Train._train Z Z unit 0 Z.add (fun w b => (w, b))
      Examples.numbered_batches true (Examples.end_to_end_args 0 None false)
      (Train.entry_state Z Z unit 0 7 tt) = (s', Ok tt)
    /\ iteration s' = 10
    /\ reported (trace s') = [2; 4; 6; 8; 10]
    /\ saved AtInterval (trace s') = [5; 10]
    /\ evaluated (trace s') = [10].
Proof.
  destruct (actions_follow_the_tests Z Z unit 0 Z.add (fun w b => (w, b))
              Examples.numbered_batches true
              (Examples.end_to_end_args 0 None false) 7 tt)
    as (s' & R & I & E1 & E2 & E3).
  - exists 2. split; [reflexivity|lia].
  - cbn. lia.
  - exists s'. rewrite R, I, E1, E2, E3. repeat split.
Defined.

Lemma epochs_run_in_order_witness :
  exists s',
    Train._train Z Z unit 0 Z.add (fun w b => (w, b))
      Examples.numbered_batches true (Examples.end_to_end_args 3 None false)
      (Train.entry_state Z Z unit 0 7 tt) = (s', Ok tt)
    /\ epochs_set (trace s') = [3; 4]
    /\ called_back (trace s') = [0; 1]
    /\ saved AtEpochEnd (trace s') = [5; 10].
Proof.
  destruct (epochs_run_in_order Z Z unit 0 Z.add (fun w b => (w, b))
              Examples.numbered_batches true
              (Examples.end_to_end_args 3 None false) 7 tt 5)
    as (s' & R & E1 & E2 & E3).
  - exists 2. split; [reflexivity|lia].
  - cbn. lia.
  - intros sampler_epoch. reflexivity.
  - exists s'. rewrite R, E1, E2, E3. repeat split.
Defined.

Lemma unusable_log_interval_stops_after_one_step_witness :
  Train._train Z Z unit 0 Z.add (fun w b => (w, b))
    Examples.numbered_batches true Examples.no_log_args
    (Train.entry_state Z Z unit 0 7 tt)
  = (mkState 1 0 0 tt [SetEpoch 0; DrawBatch 0 0 0; TrainStep 0],
     Raise TypeError).
Proof.
  apply (unusable_log_interval_stops_after_one_step Z Z unit 0 Z.add
           (fun w b => (w, b)) Examples.numbered_batches true
           Examples.no_log_args 7 tt 0 [1; 2; 3; 4]).
  - left. reflexivity.
  - cbn. lia.
  - cbn. lia.
  - reflexivity.
Defined.

End ScheduleFacts.

(* ===================================================================== *)
(** * Further properties: the looped data loader at large *)
(* ===================================================================== *)

Module CyclerPeriodFacts.

Import Cycler.

Local Open Scope nat_scope.

Lemma skipn_cons_nth {A} (l : list A) :
  forall p, p < length l ->
    exists x, nth_error l p = Some x /\ skipn p l = x :: skipn (S p) l.
Proof.
  induction l as [|y l IH]; intros p Hp; [cbn in Hp; lia|].
  destruct p as [|p].
  - exists y. split; reflexivity.
  - cbn [length] in Hp. destruct (IH p ltac:(lia)) as (x & Hx & Hs).
    exists x. split; [exact Hx|]. cbn [skipn] in *. exact Hs.
Qed.

Section Facts.

Variable A : Type.
Variable dataloader : nat -> list A.
Variable l : list A.

Hypothesis every_pass : forall k, dataloader k = l.

Abbreviation draw := (draw A dataloader).
Abbreviation generator_next := (generator_next A dataloader).

(** One draw when [p] elements of the current pass have been delivered. *)
Lemma generator_next_at (fuel : nat) (f : frame A) (p : nat) :
  l <> [] ->
  2 <= fuel ->
  p <= length l ->
  iterator f = skipn p l ->
  exists x f',
    generator_next fuel f = Some (Ok (x, f'))
    /\ nth_error l (p mod length l) = Some x
    /\ iterator f' = skipn (p mod length l + 1) l.
Proof.
  intros Hl Hf Hp Hi.
  assert (Hn : 0 < length l) by (destruct l; [contradiction|cbn; lia]).
  destruct fuel as [|[|fuel]]; try lia.
  destruct (Nat.eq_dec p (length l)) as [->|Hne].
  - rewrite skipn_all in Hi. rewrite Nat.Div0.mod_same.
    destruct (skipn_cons_nth l 0 Hn) as (x & Hx & Hs).
    exists x, (mkFrame (skipn 1 l) (S (built f))).
    cbn [Cycler.generator_next]. unfold loop_turn. rewrite Hi.
    cbn [iterator_next exn_isinstance]. unfold loop_turn, rebuild.
    cbn [iterator built]. rewrite every_pass.
    cbn [skipn] in Hs. rewrite Hs. cbn [iterator_next]. auto.
  - rewrite Nat.mod_small by lia.
    destruct (skipn_cons_nth l p ltac:(lia)) as (x & Hx & Hs).
    exists x, (mkFrame (skipn (S p) l) (built f)).
    cbn [Cycler.generator_next]. unfold loop_turn. rewrite Hi, Hs.
    cbn [iterator_next]. rewrite Nat.add_1_r. auto.
Qed.

Lemma draw_at (fuel m : nat) :
  l <> [] ->
  2 <= fuel ->
  forall (p : nat) (f : frame A),
    p <= length l ->
    iterator f = skipn p l ->
    exists xs f',
      draw fuel m f = Some (Ok (xs, f'))
      /\ length xs = m
      /\ forall i, i < m -> nth_error xs i = nth_error l ((p + i) mod length l).
Proof.
  intros Hl Hf.
  assert (Hn : 0 < length l) by (destruct l; [contradiction|cbn; lia]).
  induction m as [|m IH]; intros p f Hp Hi.
  - exists [], f. repeat split. intros i H. lia.
  - destruct (generator_next_at fuel f p Hl Hf Hp Hi) as (x & f1 & G & Hx & Hi1).
    pose proof (Nat.mod_upper_bound p (length l) ltac:(lia)) as B.
    destruct (IH (p mod length l + 1) f1 ltac:(lia) Hi1)
      as (xs & f2 & D & Hlen & Hnth).
    exists (x :: xs), f2. cbn [Cycler.draw]. rewrite G, D.
    split; [reflexivity|]. split; [cbn; lia|].
    intros [|i] H.
    + cbn [nth_error]. rewrite Nat.add_0_r. symmetry. exact Hx.
    + cbn [nth_error]. rewrite (Hnth i ltac:(lia)). f_equal.
      replace (p + S i) with (p + (1 + i)) by lia.
      rewrite <- Nat.add_assoc.
      rewrite Nat.Div0.add_mod_idemp_l. reflexivity.
Qed.

(** However many elements are drawn from the looped loader of a data loader
    whose every pass delivers the same non-empty sequence, every draw
    yields, and the [i]-th element drawn is element [i mod n] of that
    sequence: the stream is the sequence repeated for ever. *)
Theorem looped_loader_is_periodic (fuel m : nat) :
  l <> [] ->
  2 <= fuel ->
  exists xs f,
    draw fuel m (start A dataloader) = Some (Ok (xs, f))
    /\ length xs = m
    /\ forall i, i < m -> nth_error xs i = nth_error l (i mod length l).
Proof.
  intros Hl Hf.
  apply (draw_at fuel m Hl Hf 0 (start A dataloader)); [lia|].
  unfold start. cbn. apply every_pass.
Qed.

End Facts.

Section Empty.

Variable A : Type.
Variable dataloader : nat -> list A.

Hypothesis every_pass_empty : forall k, dataloader k = [].

Lemma generator_spins (fuel : nat) :
  forall f : frame A,
    iterator f = [] -> Cycler.generator_next A dataloader fuel f = None.
Proof.
  induction fuel as [|fuel IH]; intros f Hi; [reflexivity|].
  cbn [Cycler.generator_next]. unfold loop_turn. rewrite Hi.
  cbn [iterator_next exn_isinstance].
  apply IH. unfold rebuild. cbn. apply every_pass_empty.
Qed.

(** Over a data loader that delivers nothing the looped loader never
    yields: however many turns its loop is given, a draw does not return. *)
Theorem looped_empty_loader_never_yields (fuel m : nat) :
  Cycler.draw A dataloader fuel (S m) (start A dataloader) = None.
Proof.
  cbn [Cycler.draw].
  rewrite generator_spins; [reflexivity|].
  unfold start. cbn. apply every_pass_empty.
Qed.

End Empty.

Lemma looped_loader_is_periodic_witness :
  exists xs f,
    Cycler.draw nat (fun _ => [10; 20; 30]) 2 7
      (start nat (fun _ => [10; 20; 30])) = Some (Ok (xs, f))
    /\ length xs = 7
    /\ forall i, i < 7 -> nth_error xs i = nth_error [10; 20; 30] (i mod 3).
Proof.
  apply (looped_loader_is_periodic nat (fun _ => [10; 20; 30]) [10; 20; 30]
           (fun _ => eq_refl) 2 7).
  - discriminate.
  - lia.
Defined.

Lemma looped_empty_loader_never_yields_witness :
  Cycler.draw nat (fun _ => []) 1000 1 (start nat (fun _ => [])) = None.
Proof.
  apply (looped_empty_loader_never_yields nat (fun _ => [])
           (fun _ => eq_refl) 1000 0).
Defined.

End CyclerPeriodFacts.

(* ===================================================================== *)
(** * Further properties: what makes the forward step fail *)
(* ===================================================================== *)

Module ForwardErrorFacts.

Import Forward Schedule.

Section Facts.

Variables tensor mems loss : Type.
Variable to_long to_float to_half : tensor -> tensor.
Variable make_position_ids : tensor -> result tensor.
Variable model : tensor -> tensor -> tensor -> tensor * mems.
Variable cross_entropy : tensor -> tensor -> loss.

Abbreviation lookup := (lookup tensor).
Abbreviation process_batch :=
  (process_batch tensor to_long to_float to_half make_position_ids).
Abbreviation step :=
  (cross_entropy_forward_step tensor mems loss to_long to_float to_half
     make_position_ids model cross_entropy).

Lemma lookup_missing (key : string) (fields : list (string * tensor)) :
  ~ In key (map fst fields) -> lookup key fields = Raise KeyError.
Proof.
  induction fields as [|[k v] fields IH]; intros H; [reflexivity|].
  cbn [Forward.lookup]. destruct (String.eqb_spec k key) as [->|Hne].
  - exfalso. apply H. cbn. auto.
  - apply IH. intros Hin. apply H. cbn. auto.
Qed.

Lemma lookup_present (key : string) (fields : list (string * tensor)) :
  In key (map fst fields) -> exists v, lookup key fields = Ok v.
Proof.
  induction fields as [|[k v] fields IH]; intros H; [contradiction|].
  cbn [Forward.lookup]. destruct (String.eqb_spec k key) as [->|Hne].
  - exists v. reflexivity.
  - apply IH. cbn in H. destruct H as [H|H]; [contradiction|exact H].
Qed.



Lemma process_batch_incomplete (fields : list (string * tensor)) (a : Args)
    (key : string) :
  In key required_fields ->
  ~ In key (map fst fields) ->
  process_batch (BatchRecord fields) a = Raise KeyError.
Proof.
  intros Hk Hn. unfold Forward.process_batch, getitem.
  pose proof (lookup_missing key fields Hn) as M.
  destruct (in_dec string_dec "text"%string (map fst fields)) as [H1|H1];
    [destruct (lookup_present _ _ H1) as [v1 ->]
    |rewrite (lookup_missing _ _ H1); reflexivity].
  cbn [rbind].
  destruct (in_dec string_dec "types"%string (map fst fields)) as [H2|H2];
    [destruct (lookup_present _ _ H2) as [v2 ->]
    |rewrite (lookup_missing _ _ H2); reflexivity].
  cbn [rbind].
  destruct (in_dec string_dec "label"%string (map fst fields)) as [H3|H3];
    [destruct (lookup_present _ _ H3) as [v3 ->]
    |rewrite (lookup_missing _ _ H3); reflexivity].
  cbn [rbind].
  destruct (in_dec string_dec "padding_mask"%string (map fst fields))
    as [H4|H4];
    [|rewrite (lookup_missing _ _ H4); reflexivity].
  exfalso. unfold required_fields in Hk. cbn in Hk.
  destruct Hk as [<-|[<-|[<-|[<-|[]]]]]; contradiction.
Qed.


(** An iterator with nothing left makes the forward step raise
    [TypeError], whatever it raised itself ([StopIteration] included): the
    exception of the draw is swallowed and the iterator is then subscripted
    as if it were the batch.  A batch lacking a field, handed over as it is
    or delivered by an iterator, makes the step raise [KeyError]. *)
Theorem forward_step_errors (a : Args) :
  (forall e, step (Iterator [] e) a = Raise TypeError)
  /\ (forall fields key,
        In key required_fields ->
        ~ In key (map fst fields) ->
        step (BatchRecord fields) a = Raise KeyError)
  /\ (forall fields rest e key,
        In key required_fields ->
        ~ In key (map fst fields) ->
        step (Iterator (BatchRecord fields :: rest) e) a = Raise KeyError).
Proof.
  split; [|split].
  - intros e. reflexivity.
  - intros fields key Hk Hn.
    unfold Forward.cross_entropy_forward_step, select_batch.
    cbn [next fst try_except exn_isinstance rbind]. unfold forward_on.
    rewrite (process_batch_incomplete fields a key Hk Hn). reflexivity.
  - intros fields rest e key Hk Hn.
    unfold Forward.cross_entropy_forward_step, select_batch.
    cbn [next fst try_except exn_isinstance rbind]. unfold forward_on.
    rewrite (process_batch_incomplete fields a key Hk Hn). reflexivity.
Qed.

End Facts.


(** An iterator that delivers a record with no label. *)
Lemma forward_step_errors_witness :
  cross_entropy_forward_step nat unit nat id id id (fun t => Ok t)
    (fun t _ _ => (t, tt)) Nat.add
    (Iterator [BatchRecord [("text"%string, 1%nat)]] StopIteration)
    Examples.fp16_args
  = Raise KeyError.
Proof.
  destruct (forward_step_errors nat unit nat id id id (fun t => Ok t)
              (fun t _ _ => (t, tt)) Nat.add Examples.fp16_args)
    as (_ & _ & H).
  apply (H [("text"%string, 1%nat)] [] StopIteration "label"%string).
  - cbn. tauto.
  - cbn. intros [H1|[]]. discriminate.
Defined.

End ForwardErrorFacts.

(* ===================================================================== *)
(** * Further properties: loads that fail, and no load at all *)
(* ===================================================================== *)

Module FinetuneErrorFacts.

Import Finetune Examples.

Section Facts.

Variables batch loss world : Type.
Variable loss_zero : loss.
Variable loss_add : loss -> loss -> loss.
Variable train_step : world -> batch -> world * loss.
Variable train_dataloader : Z -> list batch.
Variable len_train_dataloader : Z.
Variable end_of_epoch_callback : bool.
Variable load_checkpoint : handle -> result unit.

Abbreviation finetune :=
  (finetune batch loss world loss_zero loss_add train_step
     train_dataloader len_train_dataloader end_of_epoch_callback
     load_checkpoint).

Lemma load_after_build (a : Args) :
  load (with_train_iters len_train_dataloader a) = load a.
Proof. unfold with_train_iters. destruct (0 <? epochs a); reflexivity. Qed.

(** With a load path configured, a handle whose resolved module has no
    attribute [model] makes [finetune] raise [AttributeError] before the
    checkpoint is touched, and an exception of the checkpoint reader leaves
    [finetune] at once: in both cases the master parameters are not
    refreshed and no training takes place, however many epochs are
    configured. *)
Theorem failed_load_stops_finetune
    (a : Args) (path : string) (h : handle) (it0 : Z) (w : world) :
  load a = Some path ->
  (forall e, load_target h = Raise e -> finetune a h it0 w = ([], Raise e))
  /\ (forall target e,
        load_target h = Ok target ->
        load_checkpoint target = Raise e ->
        finetune a h it0 w = ([LoadCheckpoint target], Raise e))
  /\ (forall name,
        In h (wrappings (Plain name)) ->
        finetune a h it0 w = ([], Raise AttributeError)).
Proof.
  intros Hl.
  assert (F1 : forall e, load_target h = Raise e ->
                         finetune a h it0 w = ([], Raise e)).
  { intros e He. unfold Finetune.finetune, load_pretrained.
    rewrite load_after_build, Hl, He. reflexivity. }
  split; [exact F1|]. split.
  - intros target e Ht Hc. unfold Finetune.finetune, load_pretrained.
    rewrite load_after_build, Hl, Ht, Hc. reflexivity.
  - intros name Hin. apply F1. cbn in Hin.
    repeat (destruct Hin as [<-|Hin]; [reflexivity|]). contradiction.
Qed.

(** Without a load path nothing is loaded and the master parameters are
    not refreshed, reduced precision or not: every event of [finetune] is
    an event of the training loop or the evaluation-only callback. *)
Theorem no_load_path_no_load
    (a : Args) (h : handle) (it0 : Z) (w : world) (e : event batch loss) :
  load a = None ->
  In e (fst (finetune a h it0 w)) ->
  (exists e', e = Training e') \/ e = EvaluationOnlyCallback (-1) true.
Proof.
  intros Hl. unfold Finetune.finetune, load_pretrained.
  rewrite load_after_build, Hl. unfold train_or_evaluate.
  destruct (0 <? epochs (with_train_iters len_train_dataloader a)).
  - destruct (Train._train _ _ _ _ _ _ _ _ _ _) as [s r]. cbn.
    intros H. apply in_map_iff in H as (e' & <- & _). left. eauto.
  - destruct end_of_epoch_callback; cbn; intros H; [|contradiction].
    destruct H as [<-|[]]. right. reflexivity.
Qed.

End Facts.

Lemma failed_load_stops_finetune_witness :
  finetune Z Z unit 0 Z.add (fun w b => (w, b)) numbered_batches 5 true
    (fun _ => Ok tt) fp16_args (TorchDDP (FP16_Module (Plain "bare"))) 0 tt
  = ([], Raise AttributeError).
Proof.
  destruct (failed_load_stops_finetune Z Z unit 0 Z.add (fun w b => (w, b))
              numbered_batches 5 true (fun _ => Ok tt) fp16_args
              "pretrained" (TorchDDP (FP16_Module (Plain "bare"))) 0 tt
              eq_refl) as (_ & _ & H).
  apply (H "bare"%string). cbn. tauto.
Defined.

Lemma no_load_path_no_load_witness :
  (exists e', @EvaluationOnlyCallback Z Z (-1) true = Training e')
  \/ @EvaluationOnlyCallback Z Z (-1) true = EvaluationOnlyCallback (-1) true.
Proof.
  apply (no_load_path_no_load Z Z unit 0 Z.add (fun w b => (w, b))
           numbered_batches 5 true (fun _ => Ok tt) no_epoch_args
           task_model 0 tt (EvaluationOnlyCallback (-1) true) eq_refl).
  cbn. auto.
Defined.

End FinetuneErrorFacts.

(* ===================================================================== *)
(** * Further properties: the loaders built for a run *)
(* ===================================================================== *)

Module DataloadersFacts.

Import Loader LoaderFacts LoaderShapeFacts Dataloaders Train TrainFacts
  ScheduleFacts Examples.

Lemma loader_len_positive (n batch_size W : nat) :
  (0 < n)%nat -> (0 < batch_size)%nat -> (0 < W)%nat ->
  (0 < loader_len n batch_size false W)%nat.
Proof.
  intros Hn Hb HW. unfold loader_len, num_samples, ceil_div.
  assert (S1 : (1 <= (n + W - 1) / W)%nat).
  { apply Nat.div_le_lower_bound; lia. }
  apply Nat.div_le_lower_bound; lia.
Qed.

Lemma loader_len_empty (batch_size W : nat) :
  (0 < batch_size)%nat -> (0 < W)%nat ->
  loader_len 0 batch_size false W = 0%nat.
Proof.
  intros Hb HW. unfold loader_len, num_samples, ceil_div.
  rewrite (Nat.div_small (0 + W - 1) W) by lia.
  apply Nat.div_small. lia.
Qed.

Section Facts.

Variable randperm : Z -> nat -> list nat.
Hypothesis randperm_permutes :
  forall (s : Z) (n : nat), Permutation (randperm s n) (seq 0 n).

Variables batch loss world : Type.
Variable loss_zero : loss.
Variable loss_add : loss -> loss -> loss.
Variable train_step : world -> batch -> world * loss.
Variable fetch_train fetch_valid : list nat -> batch.
Variables world_size rank : nat.
Variable end_of_epoch_callback : bool.
Variable load_checkpoint : Finetune.handle -> result unit.

Abbreviation build :=
  (_build_train_valid_dataloaders randperm batch fetch_train fetch_valid
     world_size rank).

Lemma train_pass_length (n_train n_valid batch_size : nat) (a : Args)
    (sampler_epoch : Z) :
  (rank < world_size)%nat ->
  (0 < batch_size)%nat ->
  length (train_dataloader (build n_train n_valid batch_size a) sampler_epoch)
  = loader_len n_train batch_size false world_size.
Proof.
  intros Hr Hb. cbn [train_dataloader _build_train_valid_dataloaders].
  rewrite length_map.
  apply (loader_pass_length randperm randperm_permutes); assumption.
Qed.

(** The loaders built for a non-empty training set carry a run to its
    end: with a usable log interval the loop completes, it has trained on
    exactly [args.train_iters] batches, and the counter it leaves in
    [args.iteration] is [args.train_iters], the product of the number of
    epochs and [len(train_dataloader)]. *)
Theorem run_reaches_train_iters
    (a : Args) (n_train n_valid batch_size : nat) (iteration0 : Z) (w : world) :
  (rank < world_size)%nat ->
  (0 < batch_size)%nat ->
  (0 < n_train)%nat ->
  0 <= epochs a ->
  log_interval_usable a ->
  let d := build n_train n_valid batch_size a in
  let a' := args_after_build world_size n_train batch_size a in
  exists s',
    _train batch loss world loss_zero loss_add train_step
      (train_dataloader d) end_of_epoch_callback a'
      (entry_state batch loss world loss_zero iteration0 w) = (s', Ok tt)
    /\ iteration s' = built_train_iters d
    /\ Z.of_nat (length (stepped (trace s'))) = built_train_iters d
    /\ built_train_iters d = epochs a * train_iters_per_epoch a'.
Proof.
  intros Hr Hb Hn He Hlog d a'.
  pose proof (loader_len_positive n_train batch_size world_size Hn Hb
                ltac:(lia)) as Hpos.
  assert (Hnz : train_iters_per_epoch a' <> 0)
    by (subst a'; unfold args_after_build; cbn [train_iters_per_epoch]; lia).
  assert (Hlog' : log_interval_usable a') by exact Hlog.
  assert (Hlen : forall sampler_epoch,
             length (train_dataloader d sampler_epoch)
             = loader_len n_train batch_size false world_size)
    by (intros se; apply train_pass_length; assumption).
  rewrite (train_unfold batch loss world loss_zero loss_add train_step
             (train_dataloader d) end_of_epoch_callback a' iteration0 w Hnz).
  destruct (epochs_spec batch loss world loss_zero loss_add train_step
              (train_dataloader d) end_of_epoch_callback a' _ Hlog' Hlen
              (range 0 (epochs a')) (mkState 0 loss_zero 0 w []) eq_refl)
    as (s' & R & St & _ & It & _).
  exists s'. split; [exact R|].
  rewrite PyFacts.range_length in It.
  assert (Ee : epochs a' = epochs a) by reflexivity.
  assert (Ei : train_iters_per_epoch a'
               = Z.of_nat (loader_len n_train batch_size false world_size))
    by reflexivity.
  assert (Eb : built_train_iters d
               = epochs a
                 * Z.of_nat (loader_len n_train batch_size false world_size))
    by reflexivity.
  rewrite Ee in It. cbn [iteration] in It.
  rewrite Eb, Ei. split; [lia|]. split; [|reflexivity].
  rewrite St. cbn [trace stepped flat_map app].
  rewrite (flat_map_length_const _
             (loader_len n_train batch_size false world_size))
    by (intros ep _; apply Hlen).
  rewrite PyFacts.range_length, Ee. lia.
Qed.

(** The checkpoint section reads [args.load] and [args.fp16] only, which
    building the loaders leaves alone. *)
Lemma load_pretrained_after_build (len : Z) (a : Args) (h : Finetune.handle) :
  Finetune.load_pretrained batch loss load_checkpoint
    (Finetune.with_train_iters len a) h
  = Finetune.load_pretrained batch loss load_checkpoint a h.
Proof.
  unfold Finetune.with_train_iters.
  destruct (0 <? epochs a); reflexivity.
Qed.

(** An empty training set gives a loader of length zero, and a run
    configured for at least one epoch then never starts an epoch: if the
    checkpoint section raises, [finetune] ends with that exception;
    otherwise (no load path, or a load that completed) it stops with
    [ZeroDivisionError] when the starting epoch is derived (a division by
    [args.train_iters_per_epoch]), the events of the checkpoint section
    being all that happened. *)
Theorem empty_training_set_stops_finetune
    (a : Args) (n_valid batch_size : nat) (h : Finetune.handle)
    (iteration0 : Z) (w : world) :
  (0 < world_size)%nat ->
  (0 < batch_size)%nat ->
  0 < epochs a ->
  let d := build 0 n_valid batch_size a in
  let run :=
    Finetune.finetune batch loss world loss_zero loss_add train_step
      (train_dataloader d) (built_train_iters_per_epoch d)
      end_of_epoch_callback load_checkpoint a h iteration0 w in
  let loaded := Finetune.load_pretrained batch loss load_checkpoint a h in
  built_train_iters_per_epoch d = 0
  /\ run = (fst loaded,
            match snd loaded with
            | Ok _ => Raise ZeroDivisionError
            | Raise e => Raise e
            end)
  /\ (load a = None -> run = ([], Raise ZeroDivisionError)).
Proof.
  intros HW Hb He d run loaded.
  assert (E0 : built_train_iters_per_epoch d = 0).
  { cbn [built_train_iters_per_epoch d _build_train_valid_dataloaders].
    rewrite (loader_len_empty batch_size world_size Hb HW). reflexivity. }
  assert (R : run = (fst loaded,
                     match snd loaded with
                     | Ok _ => Raise ZeroDivisionError
                     | Raise e => Raise e
                     end)).
  { subst run loaded. rewrite E0. unfold Finetune.finetune.
    rewrite load_pretrained_after_build.
    destruct (Finetune.load_pretrained batch loss load_checkpoint a h)
      as [t [[]|e]]; cbn [fst snd]; [|reflexivity].
    unfold Finetune.train_or_evaluate, Finetune.with_train_iters.
    destruct (Z.ltb_spec 0 (epochs a)) as [_|H]; [|lia].
    cbn [epochs].
    destruct (Z.ltb_spec 0 (epochs a)) as [_|H]; [|lia].
    rewrite train_without_iterations by reflexivity.
    cbn [trace map]. rewrite app_nil_r. reflexivity. }
  split; [exact E0|]. split; [exact R|].
  intros Hl. rewrite R. subst loaded. unfold Finetune.load_pretrained.
  rewrite Hl. reflexivity.
Qed.

(** The validation stream of a run: the looped loader over the validation
    loader built here never runs out when the validation set is not empty,
    and it goes through the same [len(valid_dataloader)] batches again and
    again, since the epoch of the validation sampler is never changed. *)
Theorem validation_stream_repeats
    (a : Args) (n_train n_valid batch_size fuel m : nat) :
  (rank < world_size)%nat ->
  (0 < batch_size)%nat ->
  (0 < n_valid)%nat ->
  (2 <= fuel)%nat ->
  let d := build n_train n_valid batch_size a in
  let pass := valid_passes d 0 in
  length pass = loader_len n_valid batch_size false world_size
  /\ exists xs f,
       Cycler.draw batch (valid_passes d) fuel m
         (Cycler.start batch (valid_passes d)) = Some (Ok (xs, f))
       /\ length xs = m
       /\ forall i, (i < m)%nat ->
            nth_error xs i = nth_error pass (i mod length pass).
Proof.
  intros Hr Hb Hn Hf d pass.
  assert (L : length pass = loader_len n_valid batch_size false world_size).
  { subst pass d. cbn [valid_passes _build_train_valid_dataloaders].
    rewrite length_map.
    apply (loader_pass_length randperm randperm_permutes); assumption. }
  split; [exact L|].
  pose proof (loader_len_positive n_valid batch_size world_size Hn Hb
                ltac:(lia)) as Hpos.
  assert (Hne : pass <> []).
  { intros E. rewrite E in L. cbn [length] in L. lia. }
  apply (CyclerPeriodFacts.draw_at batch (valid_passes d) pass
           (fun _ => eq_refl) fuel m Hne Hf 0%nat
           (Cycler.start batch (valid_passes d)));
    [lia | reflexivity].
Qed.

End Facts.

Lemma run_reaches_train_iters_witness :
  exists s',
    _train (list nat) Z unit 0 Z.add (fun w b => (w, 1))
      (train_dataloader
         (_build_train_valid_dataloaders in_order (list nat) id id 2 1
            7 3 2 (end_to_end_args 0 None false)))
      true
      (args_after_build 2 7 2 (end_to_end_args 0 None false))
      (entry_state (list nat) Z unit 0 7 tt) = (s', Ok tt)
    /\ iteration s' = 4.
Proof.
  destruct (run_reaches_train_iters in_order
              (fun s n => Permutation_refl (seq 0 n))
              (list nat) Z unit 0 Z.add (fun w b => (w, 1)) id id 2%nat 1%nat
              true (end_to_end_args 0 None false) 7 3 2 7 tt)
    as (s' & R & I & _); try lia.
  - cbn. lia.
  - exists 2. split; [reflexivity|lia].
  - exists s'. split; [exact R|]. rewrite I. reflexivity.
Defined.

(** An empty training set with a pretrained checkpoint to load first: the
    load and the hook that follows it are all that happens. *)
Lemma empty_training_set_stops_finetune_witness :
  Finetune.finetune (list nat) Z unit 0 Z.add (fun w b => (w, 1))
    (train_dataloader
       (_build_train_valid_dataloaders in_order (list nat) id id 2 1
          0 3 2 (end_to_end_args 0 (Some "pretrained"%string) true)))
    0 true (fun _ => Ok tt)
    (end_to_end_args 0 (Some "pretrained"%string) true) task_model 7 tt
  = ([Finetune.LoadCheckpoint language_model;
      Finetune.ModelParamsToMasterParams], Raise ZeroDivisionError).
Proof.
  destruct (empty_training_set_stops_finetune in_order
              (list nat) Z unit 0 Z.add (fun w b => (w, 1)) id id 2%nat 1%nat
              true (fun _ => Ok tt)
              (end_to_end_args 0 (Some "pretrained"%string) true) 3 2
              task_model 7 tt) as (_ & H & _); try lia.
  - cbn. lia.
  - exact H.
Defined.

Lemma validation_stream_repeats_witness :
  exists xs f,
    Cycler.draw (list nat)
      (valid_passes
         (_build_train_valid_dataloaders in_order (list nat) id id 2 1
            7 3 2 (end_to_end_args 0 None false)))
      2 5
      (Cycler.start (list nat)
         (valid_passes
            (_build_train_valid_dataloaders in_order (list nat) id id 2 1
               7 3 2 (end_to_end_args 0 None false))))
    = Some (Ok (xs, f))
    /\ length xs = 5%nat.
Proof.
  destruct (validation_stream_repeats in_order
              (fun s n => Permutation_refl (seq 0 n))
              (list nat) id id 2%nat 1%nat
              (end_to_end_args 0 None false) 7 3 2 2 5)
    as (_ & xs & f & D & L & _); try lia.
  exists xs, f. split; [exact D|exact L].
Defined.

End DataloadersFacts.

(* ===================================================================== *)
(** * Further properties: what a report sums up *)
(* ===================================================================== *)

Module ReportFacts.

Import Interval IntervalFacts Train TrainFacts Schedule ScheduleFacts.

Section Facts.

Variables batch loss world : Type.
Variable loss_zero : loss.
Variable loss_add : loss -> loss -> loss.
Variable train_step : world -> batch -> world * loss.
Variable train_dataloader : Z -> list batch.
Variable end_of_epoch_callback : bool.
Variable a : Args.

Abbreviation steps_events :=
  (steps_events batch loss world loss_zero loss_add train_step a).
Abbreviation epochs_events :=
  (epochs_events batch loss world loss_zero loss_add train_step
     train_dataloader end_of_epoch_callback a).
Abbreviation epoch_events :=
  (epoch_events batch loss world loss_zero loss_add train_step
     train_dataloader end_of_epoch_callback a).
Abbreviation step_totals :=
  (step_totals batch loss world loss_zero loss_add train_step a).
Abbreviation total_after_steps :=
  (total_after_steps batch loss world loss_zero loss_add train_step a).
Abbreviation total_after_actions := (total_after_actions loss loss_zero a).
Abbreviation world_after := (world_after batch loss world train_step).
Abbreviation losses := (losses batch loss world train_step).
Abbreviation accumulate := (accumulate loss loss_add).
Abbreviation batches_of := (batches_of batch train_dataloader a).
Abbreviation window_totals := (window_totals loss loss_zero loss_add).

(** ** The means of the closed form *)

Lemma steps_events_means (k : Z) (ep : Z) (bs : list batch) :
  log_interval a = Some k ->
  forall (j : nat) (it : Z) (total : loss) (w : world),
    reported_means (steps_events ep j it total w bs)
    = map (over k) (step_totals it total w bs).
Proof.
  intros Hk.
  induction bs as [|b bs IH]; intros j it total w; [reflexivity|].
  cbn [Schedule.steps_events Schedule.step_totals].
  unfold reported_means in *. cbn [flat_map app].
  rewrite flat_map_app, IH, map_app. f_equal.
  unfold Schedule.interval_events. rewrite Hk.
  destruct (fired (should_log a (it + 1))),
    (fired (should_save a (it + 1))), (fired (should_eval a (it + 1)));
    reflexivity.
Qed.

Lemma step_totals_app (bs1 bs2 : list batch) :
  forall (it : Z) (total : loss) (w : world),
    step_totals it total w (bs1 ++ bs2)
    = step_totals it total w bs1
      ++ step_totals (it + Z.of_nat (length bs1))
           (total_after_steps it total w bs1) (world_after w bs1) bs2.
Proof.
  induction bs1 as [|b bs1 IH]; intros it total w.
  - cbn. rewrite Z.add_0_r. reflexivity.
  - cbn [app Schedule.step_totals Schedule.total_after_steps length].
    rewrite IH, <- app_assoc.
    replace (it + 1 + Z.of_nat (length bs1))
      with (it + Z.of_nat (S (length bs1))) by lia.
    reflexivity.
Qed.

Lemma epochs_events_means (k : Z) (eps : list Z) :
  log_interval a = Some k ->
  forall (it : Z) (total : loss) (w : world),
    reported_means (epochs_events eps it total w)
    = map (over k) (step_totals it total w (batches_of eps)).
Proof.
  intros Hk.
  induction eps as [|ep eps IH]; intros it total w; [reflexivity|].
  cbn [Schedule.epochs_events]. unfold Schedule.batches_of.
  cbn [flat_map]. rewrite step_totals_app, map_app.
  unfold reported_means in *. rewrite flat_map_app, IH.
  f_equal. unfold Schedule.epoch_events. cbn [flat_map app].
  rewrite !flat_map_app.
  pose proof (steps_events_means k ep (train_dataloader (seed a + ep)) Hk 0 it
                total w) as E.
  unfold reported_means in E. rewrite E.
  destruct (truthy_str (save a)), end_of_epoch_callback;
    cbn [flat_map app]; rewrite ?app_nil_r; reflexivity.
Qed.

(** ** Losses along a sequence of batches *)

Lemma losses_firstn (m : nat) :
  forall (w : world) (bs : list batch),
    firstn m (losses w bs) = losses w (firstn m bs).
Proof.
  induction m as [|m IH]; intros w bs; [reflexivity|].
  destruct bs as [|b bs]; [reflexivity|].
  cbn [Schedule.losses firstn]. rewrite IH. reflexivity.
Qed.

Lemma losses_skipn (m : nat) :
  forall (w : world) (bs : list batch),
    skipn m (losses w bs) = losses (world_after w (firstn m bs)) (skipn m bs).
Proof.
  induction m as [|m IH]; intros w bs; [reflexivity|].
  destruct bs as [|b bs]; [reflexivity|].
  cbn [Schedule.losses firstn skipn]. rewrite IH. reflexivity.
Qed.

Lemma losses_length (w : world) (bs : list batch) :
  length (losses w bs) = length bs.
Proof.
  revert w. induction bs as [|b bs IH]; intros w; [reflexivity|].
  cbn. rewrite IH. reflexivity.
Qed.

(** ** Windows *)

(** While the logging test fails nothing is reported. *)
Lemma step_totals_quiet (bs : list batch) :
  forall (it : Z) (total : loss) (w : world),
    (forall i, 1 <= i <= Z.of_nat (length bs) ->
               fired (should_log a (it + i)) = false) ->
    step_totals it total w bs = [].
Proof.
  induction bs as [|b bs IH]; intros it total w H; [reflexivity|].
  cbn [Schedule.step_totals].
  rewrite (H 1) by (cbn [length]; lia). cbn [app].
  apply IH. intros i Hi.
  replace (it + 1 + i) with (it + (1 + i)) by lia.
  apply H. cbn [length]. lia.
Qed.

(** The first report after [m] steps carries what was accumulated plus the
    [m] losses, and the accumulator starts again from zero. *)
Lemma step_totals_window (m : nat) :
  forall (bs : list batch) (it : Z) (total : loss) (w : world),
    (1 <= m <= length bs)%nat ->
    (forall i, 1 <= i < Z.of_nat m ->
               fired (should_log a (it + i)) = false) ->
    fired (should_log a (it + Z.of_nat m)) = true ->
    step_totals it total w bs
    = accumulate total (firstn m (losses w bs))
      :: step_totals (it + Z.of_nat m) loss_zero
           (world_after w (firstn m bs)) (skipn m bs).
Proof.
  induction m as [|m IH]; intros bs it total w Hm Hq Hf; [lia|].
  destruct bs as [|b bs]; [cbn in Hm; lia|].
  cbn [Schedule.step_totals Schedule.losses firstn skipn
       Schedule.accumulate Schedule.world_after fold_left].
  destruct m as [|m].
  - change (Z.of_nat 1) with 1 in Hf. rewrite Hf. cbn [app firstn fold_left].
    unfold Schedule.total_after_actions. rewrite Hf. reflexivity.
  - rewrite (Hq 1) by lia. cbn [app].
    unfold Schedule.total_after_actions at 1. rewrite (Hq 1) by lia.
    rewrite (IH bs (it + 1) _ (fst (train_step w b))).
    + replace (it + 1 + Z.of_nat (S m)) with (it + Z.of_nat (S (S m))) by lia.
      reflexivity.
    + cbn [length] in Hm. lia.
    + intros i Hi. replace (it + 1 + i) with (it + (1 + i)) by lia.
      apply Hq. lia.
    + replace (it + 1 + Z.of_nat (S m)) with (it + Z.of_nat (S (S m))) by lia.
      exact Hf.
Qed.

Lemma window_totals_short (k : nat) (ls : list loss) :
  (length ls < k)%nat -> window_totals k ls = [].
Proof.
  intros H. unfold Schedule.window_totals.
  rewrite Nat.div_small by exact H. reflexivity.
Qed.

Lemma window_totals_cons (k : nat) (ls : list loss) :
  (0 < k <= length ls)%nat ->
  window_totals k ls
  = accumulate loss_zero (firstn k ls) :: window_totals k (skipn k ls).
Proof.
  intros H. unfold Schedule.window_totals.
  rewrite length_skipn.
  assert (E : (length ls / k = S ((length ls - k) / k))%nat).
  { replace (length ls) with (1 * k + (length ls - k))%nat at 1 by lia.
    rewrite Nat.div_add_l by lia. reflexivity. }
  rewrite E. cbn [seq map]. f_equal.
  rewrite <- seq_shift, map_map. apply map_ext. intros j.
  rewrite skipn_skipn.
  replace (j * k + k)%nat with (S j * k)%nat by lia. reflexivity.
Qed.

Lemma log_fires_on_multiples (k it : Z) :
  log_interval a = Some k -> k <> 0 ->
  fired (should_log a it) = (it mod k =? 0).
Proof.
  intros Hk Hk0. rewrite (should_log_total a it k Hk Hk0).
  destruct (it mod k =? 0); reflexivity.
Qed.

Lemma step_totals_windows (k : Z) :
  log_interval a = Some k ->
  0 < k ->
  forall (n : nat) (bs : list batch) (it : Z) (w : world),
    (length bs <= n)%nat ->
    it mod k = 0 ->
    step_totals it loss_zero w bs = window_totals (Z.to_nat k) (losses w bs).
Proof.
  intros Hk Hpos.
  assert (F : forall it i, it mod k = 0 ->
                fired (should_log a (it + i)) = (i mod k =? 0)).
  { intros it i Hit. rewrite (log_fires_on_multiples k) by (auto; lia).
    rewrite Z.add_mod, Hit, Z.add_0_l, Z.mod_mod by lia. reflexivity. }
  induction n as [|n IH]; intros bs it w Hn Hit.
  - destruct bs; [|cbn in Hn; lia].
    cbn. rewrite window_totals_short; [reflexivity|cbn; lia].
  - destruct (Nat.lt_ge_cases (length bs) (Z.to_nat k)) as [Hs|Hl].
    + rewrite window_totals_short by (rewrite losses_length; exact Hs).
      apply step_totals_quiet. intros i Hi. rewrite (F it i Hit).
      rewrite Z.mod_small by lia. apply Z.eqb_neq. lia.
    + rewrite (step_totals_window (Z.to_nat k)).
      * rewrite window_totals_cons by (rewrite losses_length; lia).
        f_equal. rewrite losses_skipn.
        apply IH.
        -- rewrite length_skipn. lia.
        -- rewrite Z2Nat.id by lia.
           rewrite Z.add_mod, Hit, Z.mod_same, Z.add_0_l, Z.mod_0_l by lia.
           reflexivity.
      * lia.
      * intros i Hi. rewrite (F it i Hit).
        rewrite Z.mod_small by lia. apply Z.eqb_neq. lia.
      * rewrite (F it _ Hit), Z2Nat.id, Z.mod_same by lia. reflexivity.
Qed.

(** With a positive log interval [k], the run completes and the mean
    handed to each report is the loss accumulated over one window divided
    by [k]: the accumulated losses are those of the successive windows of
    [k] step losses of the run, each added up from zero in step order with
    the loop's own addition (of which no law is used), a report covers the
    [k] steps since the previous one, whatever the epoch boundaries, and
    the losses after the last full window are never reported. *)
Theorem reports_sum_their_window (k iteration0 : Z) (w : world) :
  log_interval a = Some k ->
  0 < k ->
  train_iters_per_epoch a <> 0 ->
  exists s',
    Train._train batch loss world loss_zero loss_add train_step
      train_dataloader end_of_epoch_callback a
      (Train.entry_state batch loss world loss_zero iteration0 w)
    = (s', Ok tt)
    /\ reported_means (trace s')
       = map (over k)
           (window_totals (Z.to_nat k)
              (losses w (batches_of (range 0 (epochs a)))))
    /\ reported_totals (trace s')
       = window_totals (Z.to_nat k)
           (losses w (batches_of (range 0 (epochs a)))).
Proof.
  intros Hk Hpos Hnz.
  assert (Hlog : log_interval_usable a) by (exists k; split; [exact Hk|lia]).
  destruct (train_exact batch loss world loss_zero loss_add train_step
              train_dataloader end_of_epoch_callback a iteration0 w Hlog Hnz)
    as (s' & R & T & _).
  exists s'. split; [exact R|].
  assert (M : reported_means (trace s')
              = map (over k)
                  (window_totals (Z.to_nat k)
                     (losses w (batches_of (range 0 (epochs a)))))).
  { rewrite T, (epochs_events_means k _ Hk). f_equal.
    apply (step_totals_windows k Hk Hpos _ _ 0 w (le_n _)).
    apply Z.mod_0_l. lia. }
  split; [exact M|].
  unfold reported_totals. rewrite M, map_map. apply map_id.
Qed.

End Facts.

(** Ten steps whose losses are the batch numbers, reported every 2 steps,
    with an addition that saturates at 20. *)
Lemma reports_sum_their_window_witness :
  exists s',
    Train._train Z Z unit 0 (fun x y => Z.min 20 (x + y)) (fun w b => (w, b))
      Examples.numbered_batches true (Examples.end_to_end_args 0 None false)
      (Train.entry_state Z Z unit 0 7 tt) = (s', Ok tt)
    /\ reported_means (trace s')
       = [(1, 2); (5, 2); (14, 2); (20, 2); (20, 2)].
Proof.
  destruct (reports_sum_their_window Z Z unit 0 (fun x y => Z.min 20 (x + y))
              (fun w b => (w, b)) Examples.numbered_batches true
              (Examples.end_to_end_args 0 None false) 2 7 tt)
    as (s' & R & E & _); [reflexivity | lia | cbn; lia |].
  exists s'. split; [exact R|]. rewrite E. reflexivity.
Defined.

End ReportFacts.
